(** * List-An-Item: account registration, login and per-account lists

    A shallow embedding of [app.py], a Streamlit script that keeps a
    dictionary of accounts in the session, mirrors it in [accounts.json]
    and lets the logged-in user add, remove and clear the items of a
    personal list.

    Conventions of the embedding.
    - A Python [str] is a [string]; the character with code [n] stands for
      the code point U+00[n], so the texts covered are those below U+0100.
      Character tables ([str.strip], [\d]) are the ones of CPython
      restricted to that range.
    - The accounts dictionary is a [gmap string Account].  Python keeps the
      insertion order of the keys, a [gmap] does not: the order in which
      accounts are written to the file is the one of [map_to_list].
    - One execution of the script is a computation in the monad [Script]:
      it reads the widgets of the page, updates the session and the file,
      appends the notices it shows, and ends normally, by [st.rerun()], or
      by an exception.
    - [hashlib.sha256], [json.dump] and [json.load] are library code; they
      are written out in the modules [Sha256] and [Json] so that every
      definition below can be evaluated. *)

From Stdlib Require Import ZArith NArith Ascii String List Lia Bool.
From stdpp Require Import gmap strings list fin_maps.

(* ===================================================================== *)
(** * Built-in string operations                                          *)
(* ===================================================================== *)

Module PyStr.

Definition code (c : ascii) : N := N_of_ascii c.

Definition in_range (lo hi : N) (c : ascii) : bool :=
  ((lo <=? code c) && (code c <=? hi))%N.

(** [str.isspace] on one character: U+0009..U+000D, U+001C..U+0020,
    U+0085 and U+00A0. *)
Definition isspace (c : ascii) : bool :=
  in_range 9 13 c || in_range 28 32 c || (code c =? 133)%N || (code c =? 160)%N.

Fixpoint lstrip (l : list ascii) : list ascii :=
  match l with
  | c :: l' => if isspace c then lstrip l' else l
  | [] => []
  end.

Definition rstrip (l : list ascii) : list ascii := rev (lstrip (rev l)).

(** [s.strip()] *)
Definition strip (s : string) : string :=
  string_of_list_ascii (rstrip (lstrip (list_ascii_of_string s))).

(** [len(s)] *)
Definition len (s : string) : nat := String.length s.

(** [re.search(cls, s)] for a pattern that is one character class: some
    character of [s] belongs to the class. *)
Definition re_search (cls : ascii -> bool) (s : string) : bool :=
  existsb cls (list_ascii_of_string s).

(** The classes [[a-z]], [[A-Z]] and [\d]. *)
Definition lower : ascii -> bool := in_range 97 122.
Definition upper : ascii -> bool := in_range 65 90.
Definition digit : ascii -> bool := in_range 48 57.

(** A bracket class that lists its members one by one. *)
Definition one_of (members : string) (c : ascii) : bool :=
  existsb (Ascii.eqb c) (list_ascii_of_string members).

(** [s.encode()]: UTF-8. *)
Definition utf8_char (c : ascii) : list Z :=
  let n := Z.of_N (code c) in
  if (n <? 128)%Z then [n] else [192 + n / 64; 128 + n mod 64]%Z.

Definition encode (s : string) : list Z :=
  flat_map utf8_char (list_ascii_of_string s).

(** [x in l] for a list of strings. *)
Definition contains (x : string) (l : list string) : bool :=
  existsb (String.eqb x) l.

(** [l.remove(x)]: drops the first element equal to [x]; Python raises
    [ValueError] when there is none, which is [None] here. *)
Fixpoint remove (x : string) (l : list string) : option (list string) :=
  match l with
  | [] => None
  | y :: l' => if String.eqb y x then Some l'
               else match remove x l' with
                    | Some r => Some (y :: r)
                    | None => None
                    end
  end.

Definition strip_chars (l : list ascii) : list ascii := rstrip (lstrip l).

End PyStr.

(* ===================================================================== *)
(** * SHA-256 (FIPS 180-4) on 32-bit words kept in [Z]                    *)
(* ===================================================================== *)

Module Sha256.
Local Open Scope Z_scope.

Definition w32 (x : Z) : Z := x mod 2 ^ 32.
Definition rotr (n x : Z) : Z := w32 (Z.lor (Z.shiftr x n) (Z.shiftl x (32 - n))).
Definition shr (n x : Z) : Z := Z.shiftr x n.

Definition Ch (x y z : Z) : Z := Z.lxor (Z.land x y) (Z.land (w32 (Z.lnot x)) z).
Definition Maj (x y z : Z) : Z :=
  Z.lxor (Z.lxor (Z.land x y) (Z.land x z)) (Z.land y z).
Definition Sigma0 (x : Z) : Z := Z.lxor (Z.lxor (rotr 2 x) (rotr 13 x)) (rotr 22 x).
Definition Sigma1 (x : Z) : Z := Z.lxor (Z.lxor (rotr 6 x) (rotr 11 x)) (rotr 25 x).
Definition sigma0 (x : Z) : Z := Z.lxor (Z.lxor (rotr 7 x) (rotr 18 x)) (shr 3 x).
Definition sigma1 (x : Z) : Z := Z.lxor (Z.lxor (rotr 17 x) (rotr 19 x)) (shr 10 x).

(** Trial division, enough for the first primes. *)
Definition is_prime (n : Z) : bool :=
  forallb (fun d => negb (n mod Z.of_nat d =? 0)) (seq 2 (Z.to_nat n - 2)).

(** The first 64 primes: 2, 3, 5, ..., 311. *)
Definition primes : list Z :=
  Eval vm_compute in filter is_prime (map Z.of_nat (seq 2 310)).

(** The integer cube root, one bit at a time from bit [bits - 1] down. *)
Fixpoint cube_root (bits : nat) (n r : Z) : Z :=
  match bits with
  | O => r
  | S b =>
      let c := r + 2 ^ Z.of_nat b in
      cube_root b n (if c * c * c <=? n then c else r)
  end.

(** The round constants: the first 32 bits of the fractional parts of the
    cube roots of the first 64 primes. *)
Definition K : list Z :=
  Eval vm_compute in map (fun p => w32 (cube_root 40 (p * 2 ^ 96) 0)) primes.

(** The initial hash value: the first 32 bits of the fractional parts of
    the square roots of the first 8 primes. *)
Definition H0 : list Z :=
  Eval vm_compute in map (fun p => w32 (Z.sqrt (p * 2 ^ 64))) (firstn 8 primes).

(** The [n] low bytes of [x], most significant first. *)
Fixpoint be_bytes (n : nat) (x : Z) : list Z :=
  match n with
  | O => []
  | S n' => (x / 256 ^ Z.of_nat n') mod 256 :: be_bytes n' x
  end.

(** Padding: a one bit, zeros up to 56 modulo 64, the bit length on 8 bytes. *)
Definition pad (msg : list Z) : list Z :=
  let l := Z.of_nat (length msg) in
  msg ++ [128] ++ repeat 0 (Z.to_nat ((55 - l) mod 64)) ++ be_bytes 8 (8 * l).

Fixpoint be_words (fuel : nat) (bytes : list Z) : list Z :=
  match fuel, bytes with
  | S fuel', a :: b :: c :: d :: rest =>
      (((a * 256 + b) * 256 + c) * 256 + d) :: be_words fuel' rest
  | _, _ => []
  end.

Fixpoint chunks (fuel : nat) (ws : list Z) : list (list Z) :=
  match fuel, ws with
  | S fuel', _ :: _ => firstn 16 ws :: chunks fuel' (skipn 16 ws)
  | _, _ => []
  end.

(** Message schedule: 48 more words after the 16 of the block. *)
Fixpoint extend (n : nat) (w : list Z) : list Z :=
  match n with
  | O => w
  | S n' =>
      let t := length w in
      let at_ (i : nat) := nth (t - i) w 0 in
      extend n' (w ++ [w32 (sigma1 (at_ 2%nat) + at_ 7%nat
                            + sigma0 (at_ 15%nat) + at_ 16%nat)])
  end.

Definition round (s : list Z) (kw : Z * Z) : list Z :=
  match s with
  | [a; b; c; d; e; f; g; h] =>
      let t1 := h + Sigma1 e + Ch e f g + fst kw + snd kw in
      let t2 := Sigma0 a + Maj a b c in
      [w32 (t1 + t2); a; b; c; w32 (d + t1); e; f; g]
  | _ => s
  end.

Definition compress (h : list Z) (block : list Z) : list Z :=
  let w := extend 48 block in
  let s := fold_left round (combine K w) h in
  map (fun p => w32 (fst p + snd p)) (combine h s).

Definition digest (msg : list Z) : list Z :=
  let ws := be_words (length (pad msg)) (pad msg) in
  fold_left compress (chunks (length ws) ws) H0.

Definition hex_digit (n : Z) : ascii :=
  nth (Z.to_nat n) (list_ascii_of_string "0123456789abcdef") "0"%char.

Fixpoint hex_of (n : nat) (x : Z) : list ascii :=
  match n with
  | O => []
  | S n' => hex_digit ((x / 16 ^ Z.of_nat n') mod 16) :: hex_of n' x
  end.

(** [hashlib.sha256(msg).hexdigest()] *)
Definition hexdigest (msg : list Z) : string :=
  string_of_list_ascii (flat_map (hex_of 8) (digest msg)).

End Sha256.

(* ===================================================================== *)
(** * The data model                                                      *)
(* ===================================================================== *)

(** The value stored under a username: [{'password_hash': ..., 'my_list': [...]}]. *)
Record Account := mkAccount {
  password_hash : string;
  my_list : list string
}.

Global Instance Account_eq_dec : EqDecision Account.
Proof. solve_decision. Defined.

Definition set_my_list (l : list string) (a : Account) : Account :=
  {| password_hash := password_hash a; my_list := l |}.

(* ===================================================================== *)
(** * JSON documents: [json.dump(..., indent=4)] and [json.load]          *)
(* ===================================================================== *)

Module Json.

#[local] Set Warnings "-register-all".

Inductive value :=
| Null
| Bool (b : bool)
| Number (lexeme : string)
| Str (s : string)
| Array (items : list value)
| Object (members : list (string * value)).

(** Outcome of reading and decoding.  Three of them are the exceptions
    of Python: [DecodeError] is [json.JSONDecodeError]; [ValueError] is
    what [int] raises on a literal of more than [int_max_str_digits]
    digits; [UnicodeDecodeError] is what reading the file raises on bytes
    that are not UTF-8.  [Unmodelled] marks the documents this embedding
    does not follow: a character or a [\uXXXX] escape above U+00FF, and
    brackets nested deeper than [nesting_bound].  [OutOfFuel] is the
    decoder of this file running out of steps; [loads] never returns it
    (lemma [loads_has_fuel]). *)
Inductive result (A : Type) :=
| Ok (a : A)
| DecodeError
| ValueError
| UnicodeDecodeError
| Unmodelled
| OutOfFuel.
Arguments Ok {A} a.
Arguments DecodeError {A}.
Arguments ValueError {A}.
Arguments UnicodeDecodeError {A}.
Arguments Unmodelled {A}.
Arguments OutOfFuel {A}.

Definition bind {A B} (r : result A) (k : A -> result B) : result B :=
  match r with
  | Ok a => k a
  | DecodeError => DecodeError
  | ValueError => ValueError
  | UnicodeDecodeError => UnicodeDecodeError
  | Unmodelled => Unmodelled
  | OutOfFuel => OutOfFuel
  end.

Definition chars (s : string) : list ascii := list_ascii_of_string s.

(** The double quote, U+0022. *)
Definition quote : ascii := "034"%char.

(** ** Encoder *)

Definition hex4 (c : ascii) : list ascii :=
  chars "\u" ++ Sha256.hex_of 4 (Z.of_N (PyStr.code c)).

(** [ensure_ascii=True]: the quote, the backslash and everything outside
    U+0020..U+007E are escaped. *)
Definition escape (c : ascii) : list ascii :=
  if Ascii.eqb c quote then ["\"%char; quote] else
  if Ascii.eqb c "\" then chars "\\" else
  if Ascii.eqb c "010" then chars "\n" else
  if Ascii.eqb c "013" then chars "\r" else
  if Ascii.eqb c "009" then chars "\t" else
  if Ascii.eqb c "008" then chars "\b" else
  if Ascii.eqb c "012" then chars "\f" else
  if PyStr.in_range 32 126 c then [c] else hex4 c.

Definition encode_string (s : string) : list ascii :=
  quote :: flat_map escape (chars s) ++ [quote].

Fixpoint join (sep : list ascii) (parts : list (list ascii)) : list ascii :=
  match parts with
  | [] => []
  | [p] => p
  | p :: ps => p ++ sep ++ join sep ps
  end.

(** A line break followed by [level] indentation steps of four spaces. *)
Definition newline_indent (level : nat) : list ascii :=
  "010"%char :: repeat " "%char (4 * level).

Fixpoint encode (level : nat) (v : value) : list ascii :=
  match v with
  | Null => chars "null"
  | Bool true => chars "true"
  | Bool false => chars "false"
  | Number lexeme => chars lexeme
  | Str s => encode_string s
  | Array [] => chars "[]"
  | Array items =>
      chars "[" ++ newline_indent (S level)
      ++ join (chars "," ++ newline_indent (S level)) (map (encode (S level)) items)
      ++ newline_indent level ++ chars "]"
  | Object [] => chars "{}"
  | Object members =>
      chars "{" ++ newline_indent (S level)
      ++ join (chars "," ++ newline_indent (S level))
           (map (fun kv => encode_string (fst kv) ++ chars ": " ++ encode (S level) (snd kv))
                members)
      ++ newline_indent level ++ chars "}"
  end.

(** [json.dumps(v, indent=4)] *)
Definition dumps (v : value) : string := string_of_list_ascii (encode 0 v).

(** ** Decoder *)

(** The white space of the decoder: space, tab, line feed, carriage return. *)
Definition is_ws (c : ascii) : bool :=
  Ascii.eqb c " " || Ascii.eqb c "009" || Ascii.eqb c "010" || Ascii.eqb c "013".

Fixpoint skip_ws (s : list ascii) : list ascii :=
  match s with
  | c :: s' => if is_ws c then skip_ws s' else s
  | [] => []
  end.

Definition hex_value (c : ascii) : option N :=
  if PyStr.in_range 48 57 c then Some (PyStr.code c - 48)%N
  else if PyStr.in_range 97 102 c then Some (PyStr.code c - 87)%N
  else if PyStr.in_range 65 70 c then Some (PyStr.code c - 55)%N
  else None.

Definition unhex4 (a b c d : ascii) : option N :=
  match hex_value a, hex_value b, hex_value c, hex_value d with
  | Some x, Some y, Some z, Some w => Some (((x * 16 + y) * 16 + z) * 16 + w)%N
  | _, _, _, _ => None
  end.

(** The table [BACKSLASH] of the decoder. *)
Definition unescape (e : ascii) : option ascii :=
  if Ascii.eqb e quote then Some quote else
  if Ascii.eqb e "\" then Some "\"%char else
  if Ascii.eqb e "/" then Some "/"%char else
  if Ascii.eqb e "b" then Some "008"%char else
  if Ascii.eqb e "f" then Some "012"%char else
  if Ascii.eqb e "n" then Some "010"%char else
  if Ascii.eqb e "r" then Some "013"%char else
  if Ascii.eqb e "t" then Some "009"%char else None.

Definition push {A} (c : ascii) (r : result (list ascii * A)) : result (list ascii * A) :=
  bind r (fun p => Ok (c :: fst p, snd p)).

(** [scanstring], entered after the opening quote, in strict mode. *)
Fixpoint scanstring (s : list ascii) : result (list ascii * list ascii) :=
  match s with
  | [] => DecodeError
  | c :: s1 =>
      if Ascii.eqb c quote then Ok ([], s1)
      else if Ascii.eqb c "\" then
        match s1 with
        | [] => DecodeError
        | e :: s2 =>
            if Ascii.eqb e "u" then
              match s2 with
              | h1 :: h2 :: h3 :: h4 :: s3 =>
                  match unhex4 h1 h2 h3 h4 with
                  | Some n =>
                      if (n <? 256)%N then push (ascii_of_N n) (scanstring s3)
                      else Unmodelled
                  | None => DecodeError
                  end
              | _ => DecodeError
              end
            else
              match unescape e with
              | Some ch => push ch (scanstring s2)
              | None => DecodeError
              end
        end
      else if (PyStr.code c <? 32)%N then DecodeError
      else push c (scanstring s1)
  end.

Fixpoint starts_with (p s : list ascii) : option (list ascii) :=
  match p, s with
  | [], _ => Some s
  | a :: p', b :: s' => if Ascii.eqb a b then starts_with p' s' else None
  | _ :: _, [] => None
  end.

Fixpoint span_digits (s : list ascii) : list ascii * list ascii :=
  match s with
  | c :: s' =>
      if PyStr.digit c then let r := span_digits s' in (c :: fst r, snd r) else ([], s)
  | [] => ([], [])
  end.

(** [NUMBER_RE]: an optional minus sign, then either a single zero or a
    non-zero digit followed by digits; an optional fraction (a dot and at
    least one digit); an optional exponent (e or E, an optional sign and
    at least one digit). *)
Definition match_integer (s : list ascii) : option (list ascii * list ascii) :=
  let body (t : list ascii) :=
    match t with
    | c :: t' =>
        if Ascii.eqb c "0" then Some ([c], t')
        else if PyStr.digit c then Some (span_digits t)
        else None
    | [] => None
    end in
  match s with
  | c :: s' =>
      if Ascii.eqb c "-" then
        match body s' with Some r => Some (c :: fst r, snd r) | None => None end
      else body s
  | [] => None
  end.

Definition match_frac (s : list ascii) : list ascii * list ascii :=
  match s with
  | c :: s' =>
      if Ascii.eqb c "." then
        match span_digits s' with
        | ([], _) => ([], s)
        | (ds, rest) => (c :: ds, rest)
        end
      else ([], s)
  | [] => ([], [])
  end.

Definition match_exp (s : list ascii) : list ascii * list ascii :=
  match s with
  | c :: s' =>
      if Ascii.eqb c "e" || Ascii.eqb c "E" then
        let signed :=
          match s' with
          | g :: s'' => if Ascii.eqb g "-" || Ascii.eqb g "+" then ([g], s'') else ([], s')
          | [] => ([], s')
          end in
        match span_digits (snd signed) with
        | ([], _) => ([], s)
        | (ds, rest) => (c :: fst signed ++ ds, rest)
        end
      else ([], s)
  | [] => ([], [])
  end.

(** The three groups of [NUMBER_RE] and what follows the match. *)
Definition match_number (s : list ascii)
    : option (list ascii * list ascii * list ascii * list ascii) :=
  match match_integer s with
  | Some (i, s1) =>
      let f := match_frac s1 in
      let e := match_exp (snd f) in
      Some (i, fst f, fst e, snd e)
  | None => None
  end.

(** [sys.get_int_max_str_digits()], as CPython 3.11 sets it. *)
Definition int_max_str_digits : nat := 4300.

(** The number a match stands for: [int(integer)] when there is neither
    a fraction nor an exponent, which raises [ValueError] when the
    literal has more digits than [int] converts; [float] of the whole
    match otherwise, which raises nothing. *)
Definition number (i f e : list ascii) : result value :=
  match f, e with
  | [], [] =>
      if int_max_str_digits <? length (filter PyStr.digit i) then ValueError
      else Ok (Number (string_of_list_ascii i))
  | _, _ => Ok (Number (string_of_list_ascii (i ++ f ++ e)))
  end.

Definition keyword (s : list ascii) : result (value * list ascii) :=
  match starts_with (chars "null") s with Some r => Ok (Null, r) | None =>
  match starts_with (chars "true") s with Some r => Ok (Bool true, r) | None =>
  match starts_with (chars "false") s with Some r => Ok (Bool false, r) | None =>
  match match_number s with
  | Some (i, f, e, r) => bind (number i f e) (fun n => Ok (n, r))
  | None =>
  match starts_with (chars "NaN") s with Some r => Ok (Number "NaN", r) | None =>
  match starts_with (chars "Infinity") s with Some r => Ok (Number "Infinity", r) | None =>
  match starts_with (chars "-Infinity") s with Some r => Ok (Number "-Infinity", r) | None =>
  DecodeError
  end end end end end end end.

(** [scan_once], [JSONObject] and [JSONArray].  Every call uses one unit
    of fuel; [parse_members] is entered after the opening quote of a key
    and [parse_items] at the first character of an element.  The decoder
    of CPython enters a recursive call for every opening bracket and
    raises [RecursionError] when the interpreter has no frame left for
    it: [depth] is the number of brackets that may still be opened, and
    what happens beyond it is not followed. *)
Fixpoint scan_once (fuel depth : nat) (s : list ascii) : result (value * list ascii) :=
  match fuel with
  | O => OutOfFuel
  | S fuel' =>
      match s with
      | [] => DecodeError
      | c :: s1 =>
          if Ascii.eqb c quote then
            bind (scanstring s1) (fun p => Ok (Str (string_of_list_ascii (fst p)), snd p))
          else if Ascii.eqb c "{" then
            match depth with
            | O => Unmodelled
            | S depth' =>
                match skip_ws s1 with
                | d :: s2 =>
                    if Ascii.eqb d "}" then Ok (Object [], s2)
                    else if Ascii.eqb d quote then
                      bind (parse_members fuel' depth' s2)
                        (fun p => Ok (Object (fst p), snd p))
                    else DecodeError
                | [] => DecodeError
                end
            end
          else if Ascii.eqb c "[" then
            match depth with
            | O => Unmodelled
            | S depth' =>
                match skip_ws s1 with
                | d :: s2 =>
                    if Ascii.eqb d "]" then Ok (Array [], s2)
                    else bind (parse_items fuel' depth' (d :: s2))
                           (fun p => Ok (Array (fst p), snd p))
                | [] => DecodeError
                end
            end
          else keyword s
      end
  end
with parse_members (fuel depth : nat) (s : list ascii)
     : result (list (string * value) * list ascii) :=
  match fuel with
  | O => OutOfFuel
  | S fuel' =>
      bind (scanstring s) (fun k =>
      match skip_ws (snd k) with
      | c :: s1 =>
          if Ascii.eqb c ":" then
            bind (scan_once fuel' depth (skip_ws s1)) (fun v =>
            let member := (string_of_list_ascii (fst k), fst v) in
            match skip_ws (snd v) with
            | d :: s2 =>
                if Ascii.eqb d "}" then Ok ([member], s2)
                else if Ascii.eqb d "," then
                  match skip_ws s2 with
                  | q :: s3 =>
                      if Ascii.eqb q quote then
                        bind (parse_members fuel' depth s3)
                          (fun p => Ok (member :: fst p, snd p))
                      else DecodeError
                  | [] => DecodeError
                  end
                else DecodeError
            | [] => DecodeError
            end)
          else DecodeError
      | [] => DecodeError
      end)
  end
with parse_items (fuel depth : nat) (s : list ascii) : result (list value * list ascii) :=
  match fuel with
  | O => OutOfFuel
  | S fuel' =>
      bind (scan_once fuel' depth s) (fun v =>
      match skip_ws (snd v) with
      | d :: s2 =>
          if Ascii.eqb d "]" then Ok ([fst v], s2)
          else if Ascii.eqb d "," then
            bind (parse_items fuel' depth (skip_ws s2))
              (fun p => Ok (fst v :: fst p, snd p))
          else DecodeError
      | [] => DecodeError
      end)
  end.

(** The nesting this embedding follows.  The interpreter allows 1000
    frames by default, less those in use when the file is read; texts
    that open more than [nesting_bound] brackets inside one another are
    [Unmodelled]. *)
Definition nesting_bound : nat := 500.

(** Two units of fuel for every character, and one: no text uses more. *)
Definition fuel_for (s : list ascii) : nat := 2 * length s + 1.

(** [json.loads]: one value between optional white space, nothing after. *)
Definition loads (text : string) : result value :=
  let s := chars text in
  bind (scan_once (fuel_for s) nesting_bound (skip_ws s)) (fun p =>
  match skip_ws (snd p) with
  | [] => Ok (fst p)
  | _ :: _ => DecodeError
  end).

(** ** Reading the file

    [open(ACCOUNTS_FILE, 'r')] decodes the bytes of the file, in UTF-8
    where that is the encoding of the locale, and [f.read()] raises
    [UnicodeDecodeError] when they are not UTF-8.  A byte string is a list
    of characters with the codes of the bytes.  Line ends are translated
    on reading, carriage returns becoming line feeds; the decoder treats
    the two alike, as white space between values and as an error inside a
    string, so the translation is left out. *)

(** A continuation byte. *)
Definition continuation : ascii -> bool := PyStr.in_range 128 191.

(** The byte that may follow the first byte [b] of a sequence of three
    or four: no overlong form, no surrogate, nothing above U+10FFFF. *)
Definition second (b c : ascii) : bool :=
  if (PyStr.code b =? 224)%N then PyStr.in_range 160 191 c
  else if (PyStr.code b =? 237)%N then PyStr.in_range 128 159 c
  else if (PyStr.code b =? 240)%N then PyStr.in_range 144 191 c
  else if (PyStr.code b =? 244)%N then PyStr.in_range 128 143 c
  else continuation c.

(** A character above U+00FF was decoded: the text is not followed,
    unless the bytes after it are refused. *)
Definition wide (r : result (list ascii)) : result (list ascii) :=
  match r with
  | UnicodeDecodeError => UnicodeDecodeError
  | _ => Unmodelled
  end.

Definition keep (c : ascii) (r : result (list ascii)) : result (list ascii) :=
  bind r (fun l => Ok (c :: l)).

(** [bytes.decode('utf-8')] *)
Fixpoint utf8_decode (s : list ascii) : result (list ascii) :=
  match s with
  | [] => Ok []
  | b :: s1 =>
      if (PyStr.code b <? 128)%N then keep b (utf8_decode s1)
      else if PyStr.in_range 194 223 b then
        match s1 with
        | c1 :: s2 =>
            if continuation c1 then
              let n := ((PyStr.code b - 192) * 64 + (PyStr.code c1 - 128))%N in
              if (n <? 256)%N then keep (ascii_of_N n) (utf8_decode s2)
              else wide (utf8_decode s2)
            else UnicodeDecodeError
        | [] => UnicodeDecodeError
        end
      else if PyStr.in_range 224 239 b then
        match s1 with
        | c1 :: c2 :: s3 =>
            if second b c1 && continuation c2 then wide (utf8_decode s3)
            else UnicodeDecodeError
        | _ => UnicodeDecodeError
        end
      else if PyStr.in_range 240 244 b then
        match s1 with
        | c1 :: c2 :: c3 :: s4 =>
            if second b c1 && continuation c2 && continuation c3
            then wide (utf8_decode s4)
            else UnicodeDecodeError
        | _ => UnicodeDecodeError
        end
      else UnicodeDecodeError
  end.

(** [json.load(f)], which is [json.loads(f.read())], on a file with the
    given bytes. *)
Definition load (bytes : string) : result value :=
  bind (utf8_decode (chars bytes)) (fun text => loads (string_of_list_ascii text)).

(** ** The accounts dictionary as a document *)

Definition of_account (a : Account) : value :=
  Object [("password_hash", Str (password_hash a));
          ("my_list", Array (map Str (my_list a)))].

Definition of_accounts (m : gmap string Account) : value :=
  Object (map (fun kv => (fst kv, of_account (snd kv))) (map_to_list m)).

(** The dictionary built from the members of an object: a later member
    replaces an earlier one with the same key. *)
Definition dict (members : list (string * value)) : gmap string value :=
  fold_left (fun d kv => <[fst kv := snd kv]> d) members ∅.

Definition as_str (v : value) : option string :=
  match v with Str s => Some s | _ => None end.

Definition as_strs (v : value) : option (list string) :=
  match v with Array items => mapM as_str items | _ => None end.

(** A document is an account when it is an object with exactly the two
    keys of the data model, holding a string and a list of strings. *)
Definition to_account (v : value) : option Account :=
  match v with
  | Object members =>
      let d := dict members in
      if decide (dom d = {["password_hash"; "my_list"]}) then
        h ← d !! "password_hash" ≫= as_str;
        l ← d !! "my_list" ≫= as_strs;
        Some (mkAccount h l)
      else None
  | _ => None
  end.

Definition to_accounts (v : value) : option (gmap string Account) :=
  match v with
  | Object members =>
      let d := dict members in
      let m := omap to_account d in
      if decide (dom m = dom d) then Some m else None
  | _ => None
  end.

(** ** Documents and their texts, for the statements about decoding *)

(** Values without number literals. *)
Fixpoint plain (v : value) : bool :=
  match v with
  | Number _ => false
  | Array items => forallb plain items
  | Object members => forallb (fun kv => plain (snd kv)) members
  | _ => true
  end.

(** How deep the brackets of a value nest. *)
Fixpoint height (v : value) : nat :=
  match v with
  | Array items => S (list_max (map height items))
  | Object members => S (list_max (map (fun kv => height (snd kv)) members))
  | _ => 0
  end.

(** Fuel that decoding the text of a value needs. *)
Fixpoint weight (v : value) : nat :=
  match v with
  | Array items => S (list_sum (map (fun x => S (weight x)) items))
  | Object members => S (list_sum (map (fun kv => S (weight (snd kv))) members))
  | _ => 1
  end.

(** The first character of the text of a plain value: it is neither
    white space nor a closing bracket, so it starts an element. *)
Definition opener (c : ascii) : Prop :=
  is_ws c = false /\ Ascii.eqb c "]" = false /\ Ascii.eqb c "}" = false.

Definition separator (level : nat) : list ascii := ","%char :: newline_indent level.

Definition encode_member (level : nat) (kv : string * value) : list ascii :=
  encode_string (fst kv) ++ chars ": " ++ encode level (snd kv).

(** The text of a member after the opening quote of its key. *)
Definition member_tail (level : nat) (kv : string * value) : list ascii :=
  flat_map escape (chars (fst kv)) ++ quote :: chars ": " ++ encode level (snd kv).

(** A character below U+0080. *)
Definition seven (c : ascii) : Prop := (PyStr.code c <? 128)%N = true.

(** A scanner that did not run out of fuel and, when it found something,
    left fewer than [n] characters. *)
Definition within {A} (n : nat) (r : result (A * list ascii)) : Prop :=
  match r with
  | Ok p => length (snd p) < n
  | OutOfFuel => False
  | _ => True
  end.

End Json.

(* ===================================================================== *)
(** * One run of the script                                               *)
(* ===================================================================== *)

(** [st.error], [st.warning], [st.success] and [st.info].  Static text
    ([st.title], [st.subheader], [st.write]) and the pauses of
    [time.sleep] are not recorded. *)
Inductive Level := Error | Warning | Success | Info.

Global Instance Level_eq_dec : EqDecision Level.
Proof. solve_decision. Defined.

Definition Notice : Type := Level * string.

(** [st.session_state].  A field is [None] while the key is absent; for
    [logged_in_user] the absent key and the value [None] are one case,
    because [main_app] stores [None] as soon as it finds the key absent. *)
Record SessionState := mkSession {
  accounts : option (gmap string Account);
  page : option string;
  logged_in_user : option string
}.

(** What a run can read and change: the session, the bytes of
    [accounts.json] ([None] when there is no such file) and the notices
    shown so far. *)
Record World := mkWorld {
  session_state : SessionState;
  accounts_file : option string;
  shown : list Notice
}.

(** The values of the widgets during one run. *)
Record Widgets := mkWidgets {
  home_register : bool;
  home_login : bool;
  register_username : string;
  register_password : string;
  register_submitted : bool;
  reg_back : bool;
  login_username : string;
  login_password : string;
  login_submitted : bool;
  login_back : bool;
  (** the checkbox with key [remove_item_{idx}_{item}] *)
  remove_item : nat -> string -> bool;
  add_new_item_input : string;
  add_item_button : bool;
  clear_list_button : bool;
  logout_button : bool
}.

(** How a run can stop early.  [RerunException] is what [st.rerun()]
    raises; the script catches none of the others, so they end the run
    with a traceback.  [OutsideModel] stands for a file that this
    embedding does not follow: one whose document is not a dictionary of
    accounts as in the data model, or one that [Json.load] leaves out. *)
Inductive Exn :=
| RerunException
| KeyError (key : option string)
| ValueError
| UnicodeDecodeError
| AttributeError (name : string)
| OutsideModel.

Inductive Ctl (A : Type) :=
| Value (a : A)
| Raise (e : Exn).
Arguments Value {A} a.
Arguments Raise {A} e.

Definition Script (A : Type) : Type := World -> Ctl A * World.

Global Instance Script_ret : MRet Script := fun A a w => (Value a, w).

Global Instance Script_bind : MBind Script := fun A B k m w =>
  match m w with
  | (Value a, w') => k a w'
  | (Raise e, w') => (Raise e, w')
  end.

Definition raise {A} (e : Exn) : Script A := fun w => (Raise e, w).

Definition show (l : Level) (text : string) : Script unit := fun w =>
  (Value tt, mkWorld (session_state w) (accounts_file w) (shown w ++ [(l, text)])).

Definition st_error : string -> Script unit := show Error.
Definition st_warning : string -> Script unit := show Warning.
Definition st_success : string -> Script unit := show Success.
Definition st_info : string -> Script unit := show Info.

Definition st_rerun {A} : Script A := raise RerunException.

Definition update_session (f : SessionState -> SessionState) : Script unit := fun w =>
  (Value tt, mkWorld (f (session_state w)) (accounts_file w) (shown w)).

Definition session : Script SessionState := fun w => (Value (session_state w), w).

Definition get_accounts : Script (gmap string Account) := fun w =>
  match accounts (session_state w) with
  | Some a => (Value a, w)
  | None => (Raise (AttributeError "accounts"), w)
  end.

Definition set_accounts (a : gmap string Account) : Script unit :=
  update_session (fun s => mkSession (Some a) (page s) (logged_in_user s)).

Definition get_page : Script string := fun w =>
  match page (session_state w) with
  | Some p => (Value p, w)
  | None => (Raise (AttributeError "page"), w)
  end.

Definition set_page (p : string) : Script unit :=
  update_session (fun s => mkSession (accounts s) (Some p) (logged_in_user s)).

Definition get_logged_in_user : Script (option string) := fun w =>
  (Value (logged_in_user (session_state w)), w).

Definition set_logged_in_user (u : option string) : Script unit :=
  update_session (fun s => mkSession (accounts s) (page s) u).

(** [accounts[username]] *)
Definition getitem (a : gmap string Account) (username : option string) : Script Account :=
  match username with
  | Some u =>
      match a !! u with
      | Some user_data => mret user_data
      | None => raise (KeyError username)
      end
  | None => raise (KeyError None)
  end.

Definition read_file : Script (option string) := fun w => (Value (accounts_file w), w).

(** Writing a text below U+0080, whose bytes are its characters; the
    texts of [Json.dumps] are such texts. *)
Definition write_file (text : string) : Script unit := fun w =>
  (Value tt, mkWorld (session_state w) (Some text) (shown w)).

Definition ACCOUNTS_FILE : string := "accounts.json".

(* ===================================================================== *)
(** * The functions of [app.py]                                            *)
(* ===================================================================== *)

(** Only [json.JSONDecodeError] is caught; what else [json.load] raises
    leaves the function. *)
Definition load_accounts : Script Json.value :=
  file ← read_file;
  match file with
  | Some bytes =>
      match Json.load bytes with
      | Json.Ok document => mret document
      | Json.DecodeError =>
          st_warning ("Warning: " +:+ ACCOUNTS_FILE
                      +:+ " is corrupted or empty. Starting with no accounts.");;
          mret (Json.Object [])
      | Json.ValueError => raise ValueError
      | Json.UnicodeDecodeError => raise UnicodeDecodeError
      | Json.Unmodelled | Json.OutOfFuel => raise OutsideModel
      end
  | None => mret (Json.Object [])
  end.

Definition save_accounts (a : gmap string Account) : Script unit :=
  write_file (Json.dumps (Json.of_accounts a)).

Definition VERIFICATION_CODE_LENGTH : nat := 6.

(** [random.choices(population, k=k)]: [k] characters of [population].
    The generator is an input of the model: [draw i] is the number it
    yields for the character at position [i], taken modulo the size of
    the population. *)
Definition random_choices (population : string) (k : nat) (draw : nat -> nat)
    : list ascii :=
  let p := list_ascii_of_string population in
  map (fun i => nth (draw i mod length p) p "0"%char) (seq 0 k).

Definition generate_verification_code (draw : nat -> nat) : string :=
  string_of_list_ascii (random_choices "0123456789" VERIFICATION_CODE_LENGTH draw).

Definition hash_password (password : string) : string :=
  Sha256.hexdigest (PyStr.encode password).

(** The members of the class of special characters, as the pattern lists
    them. *)
Definition special_characters : string := "!@#$%^&*()_+={}[]|\:;'<>,.?/`~-".

Definition register_account_page (w : Widgets) : Script unit :=
  let username := PyStr.strip (register_username w) in
  let password := PyStr.strip (register_password w) in
  if register_submitted w then
    a ← get_accounts;
    if bool_decide (is_Some (a !! username)) then
      st_error "Username already exists. Please choose a different one."
    else if bool_decide (username = "") then
      st_error "Username cannot be empty."
    else if PyStr.len password <? 6 then
      st_error "Password must be at least 6 characters long."
    else if negb (PyStr.re_search PyStr.lower password) then
      st_error "Password must contain at least one lowercase letter."
    else if negb (PyStr.re_search PyStr.upper password) then
      st_error "Password must contain at least one uppercase letter."
    else if negb (PyStr.re_search PyStr.digit password) then
      st_error "Password must contain at least one digit."
    else if negb (PyStr.re_search (PyStr.one_of special_characters) password) then
      st_error "Password must contain at least one special character."
    else
      let hashed_password := hash_password password in
      set_accounts (<[username := mkAccount hashed_password []]> a);;
      a' ← get_accounts;
      save_accounts a';;
      st_success ("Account '" +:+ username +:+ "' created successfully!");;
      set_page "login";;
      st_rerun
  else mret tt.

Definition login_account_page (w : Widgets) : Script unit :=
  let username := PyStr.strip (login_username w) in
  let password := PyStr.strip (login_password w) in
  if login_submitted w then
    a ← get_accounts;
    match a !! username with
    | None => st_error "Invalid username or password."
    | Some user_data =>
        let stored_password_hash := password_hash user_data in
        let entered_password_hash := hash_password password in
        if bool_decide (stored_password_hash = entered_password_hash) then
          set_logged_in_user (Some username);;
          st_success ("Welcome, " +:+ username +:+ "! You have successfully logged in.");;
          set_page "list_management";;
          st_rerun
        else st_error "Invalid username or password."
    end
  else mret tt.

(** [user_data['my_list'] = l] followed by the two lines that store and
    save the dictionary; [user_data] is the record of [username] inside
    the dictionary of the session. *)
Definition store_my_list (username : option string) (l : list string) : Script unit :=
  a ← get_accounts;
  user_data ← getitem a username;
  match username with
  | Some u => set_accounts (<[u := set_my_list l user_data]> a)
  | None => raise (KeyError None)
  end;;
  a' ← get_accounts;
  save_accounts a'.

(** The loop over [enumerate(my_list_current)], from position [idx] on. *)
Fixpoint removal_loop (w : Widgets) (username : option string)
    (idx : nat) (items : list string) : Script unit :=
  match items with
  | [] => mret tt
  | item :: rest =>
      (if remove_item w idx item then
         a ← get_accounts;
         user_data ← getitem a username;
         if PyStr.contains item (my_list user_data) then
           st_info ("'" +:+ item +:+ "' is getting deleted...");;
           st_info ("DONE! '" +:+ item +:+ "' is deleted!");;
           match PyStr.remove item (my_list user_data) with
           | Some l => store_my_list username l
           | None => raise ValueError
           end;;
           st_rerun
         else mret tt
       else mret tt);;
      removal_loop w username (S idx) rest
  end.

Definition manage_user_list_page (w : Widgets) : Script unit :=
  username ← get_logged_in_user;
  a ← get_accounts;
  user_data ← getitem a username;
  let my_list_current := my_list user_data in
  match my_list_current with
  | _ :: _ => removal_loop w username 0 my_list_current
  | [] => st_info "Your list is empty. Add some items!"
  end;;
  let new_item := PyStr.strip (add_new_item_input w) in
  (if add_item_button w then
     if negb (bool_decide (new_item = "")) then
       if PyStr.contains new_item (my_list user_data) then
         st_warning ("'" +:+ new_item +:+ "' is already in your list.")
       else
         store_my_list username (my_list user_data ++ [new_item]);;
         st_success ("'" +:+ new_item +:+ "' added to your list!");;
         st_rerun
     else st_warning "Item cannot be empty."
   else mret tt);;
  (if clear_list_button w then
     match my_list user_data with
     | _ :: _ =>
         store_my_list username [];;
         st_success "Your list has been cleared!";;
         st_rerun
     | [] => st_info "Your list is already empty."
     end
   else mret tt);;
  (if logout_button w then
     set_logged_in_user None;;
     set_page "home";;
     st_rerun
   else mret tt).

(** Truth value of [st.session_state.logged_in_user]: [None] and the empty
    string are false. *)
Definition truthy (u : option string) : bool :=
  match u with
  | Some s => negb (bool_decide (s = ""))
  | None => false
  end.

Definition main_app (w : Widgets) : Script unit :=
  s ← session;
  match accounts s with
  | Some _ => mret tt
  | None =>
      document ← load_accounts;
      match Json.to_accounts document with
      | Some a => set_accounts a
      | None => raise OutsideModel
      end
  end;;
  s ← session;
  match page s with
  | Some _ => mret tt
  | None => set_page "home"
  end;;
  user ← get_logged_in_user;
  current ← get_page;
  if truthy user then manage_user_list_page w
  else if bool_decide (current = "home") then
    (if home_register w then set_page "register";; st_rerun else mret tt);;
    (if home_login w then set_page "login";; st_rerun else mret tt)
  else if bool_decide (current = "register") then
    register_account_page w;;
    (if reg_back w then set_page "home";; st_rerun else mret tt)
  else if bool_decide (current = "login") then
    login_account_page w;;
    (if login_back w then set_page "home";; st_rerun else mret tt)
  else
    set_page "home";; st_rerun.

(* ===================================================================== *)
(** * Vocabulary of the statements                                       *)
(* ===================================================================== *)

(** The world after a run, and how the run ended. *)
Definition after {A} (m : Script A) (x : World) : World := snd (m x).

Definition outcome {A} (m : Script A) (x : World) : Ctl A := fst (m x).

Definition says (x : World) (n : Notice) : World :=
  mkWorld (session_state x) (accounts_file x) (shown x ++ [n]).

Definition invalid_login : Notice := (Error, "Invalid username or password.").

(** Sample dictionaries, widgets and worlds for the instances of the
    statements. *)
Definition alice_hash : string := hash_password "Abc123!".

Definition alice_only : gmap string Account := {["alice" := mkAccount alice_hash []]}.

(** No button pressed, no checkbox ticked, every field empty. *)
Definition idle : Widgets :=
  mkWidgets false false "" "" false false "" "" false false (fun _ _ => false) ""
    false false false.

(** The widgets of [w] with the two fields of the login form replaced. *)
Definition with_login (username password : string) (w : Widgets) : Widgets :=
  mkWidgets (home_register w) (home_login w) (register_username w)
    (register_password w) (register_submitted w) (reg_back w)
    username password (login_submitted w) (login_back w)
    (remove_item w) (add_new_item_input w) (add_item_button w)
    (clear_list_button w) (logout_button w).

Definition submit_login (username password : string) : Widgets :=
  mkWidgets false false "" "" false false username password true false
    (fun _ _ => false) "" false false false.

Definition submit_registration (username password : string) : Widgets :=
  mkWidgets false false username password true false "" "" false false
    (fun _ _ => false) "" false false false.

Definition on_page (a : gmap string Account) (p : string) (user : option string) : World :=
  mkWorld (mkSession (Some a) (Some p) user) None [].

(** The seven rules of the registration form, in the order in which the
    form checks them. *)
Inductive Rule :=
| UsernameIsNew
| UsernameNotEmpty
| PasswordLength
| PasswordLower
| PasswordUpper
| PasswordDigit
| PasswordSpecial.

Definition rank (r : Rule) : nat :=
  match r with
  | UsernameIsNew => 1
  | UsernameNotEmpty => 2
  | PasswordLength => 3
  | PasswordLower => 4
  | PasswordUpper => 5
  | PasswordDigit => 6
  | PasswordSpecial => 7
  end.

(** Some character of [s] satisfies [P]. *)
Definition has_char (P : ascii -> Prop) (s : string) : Prop :=
  exists c, In c (list_ascii_of_string s) /\ P c.

Definition between (lo hi : ascii) (c : ascii) : Prop :=
  (N_of_ascii lo <= N_of_ascii c <= N_of_ascii hi)%N.

(** What each rule asks of the username and the password. *)
Definition holds (a : gmap string Account) (username password : string) (r : Rule) : Prop :=
  match r with
  | UsernameIsNew => a !! username = None
  | UsernameNotEmpty => username <> ""
  | PasswordLength => 6 <= String.length password
  | PasswordLower => has_char (between "a" "z") password
  | PasswordUpper => has_char (between "A" "Z") password
  | PasswordDigit => has_char (between "0" "9") password
  | PasswordSpecial =>
      has_char (fun c => In c (list_ascii_of_string special_characters)) password
  end.

Definition complaint (r : Rule) : string :=
  match r with
  | UsernameIsNew => "Username already exists. Please choose a different one."
  | UsernameNotEmpty => "Username cannot be empty."
  | PasswordLength => "Password must be at least 6 characters long."
  | PasswordLower => "Password must contain at least one lowercase letter."
  | PasswordUpper => "Password must contain at least one uppercase letter."
  | PasswordDigit => "Password must contain at least one digit."
  | PasswordSpecial => "Password must contain at least one special character."
  end.

(** The world a successful registration leaves. *)
Definition registered (x : World) (a : gmap string Account) (username password : string)
    : World :=
  let a' := <[username := mkAccount (hash_password password) []]> a in
  mkWorld (mkSession (Some a') (Some "login") (logged_in_user (session_state x)))
    (Some (Json.dumps (Json.of_accounts a')))
    (shown x ++ [(Success, "Account '" +:+ username +:+ "' created successfully!")]).

(** The rules as a boolean test. *)
Definition check (a : gmap string Account) (username password : string) (r : Rule) : bool :=
  match r with
  | UsernameIsNew => negb (bool_decide (is_Some (a !! username)))
  | UsernameNotEmpty => negb (bool_decide (username = ""))
  | PasswordLength => negb (PyStr.len password <? 6)
  | PasswordLower => PyStr.re_search PyStr.lower password
  | PasswordUpper => PyStr.re_search PyStr.upper password
  | PasswordDigit => PyStr.re_search PyStr.digit password
  | PasswordSpecial => PyStr.re_search (PyStr.one_of special_characters) password
  end.

Definition blank (s : string) : Prop :=
  forallb PyStr.isspace (list_ascii_of_string s) = true.

(** The first ticked checkbox met by the loop over the list, if any. *)
Fixpoint first_ticked (w : Widgets) (idx : nat) (items : list string) : option string :=
  match items with
  | [] => None
  | item :: rest =>
      if remove_item w idx item then Some item else first_ticked w (S idx) rest
  end.

(** The world with the list of [u] replaced by [l] in the session and in
    the file, and the notices [ns] added. *)
Definition with_list (x : World) (a : gmap string Account) (u : string) (d : Account)
    (l : list string) (ns : list Notice) : World :=
  let a' := <[u := set_my_list l d]> a in
  mkWorld (mkSession (Some a') (page (session_state x)) (logged_in_user (session_state x)))
    (Some (Json.dumps (Json.of_accounts a')))
    (shown x ++ ns).

Definition deletion_notices (item : string) : list Notice :=
  [(Info, "'" +:+ item +:+ "' is getting deleted...");
   (Info, "DONE! '" +:+ item +:+ "' is deleted!")].

Definition listing (l : list string) : list Notice :=
  match l with
  | [] => [(Info, "Your list is empty. Add some items!")]
  | _ :: _ => []
  end.

Definition notes (x : World) (ns : list Notice) : World :=
  mkWorld (session_state x) (accounts_file x) (shown x ++ ns).

(** The ways in which the list page changes a list. *)
Definition list_step (l l' : list string) : Prop :=
  (exists y, y ∈ l /\ PyStr.remove y l = Some l')
  \/ (exists n, n <> "" /\ (n ∉ l) /\ l' = l ++ [n])
  \/ l' = [].

(** The part of [manage_user_list_page] below the list: the text input
    and the three buttons. *)
Definition below_the_list (w : Widgets) (username : option string) (user_data : Account)
    : Script unit :=
  let new_item := PyStr.strip (add_new_item_input w) in
  (if add_item_button w then
     if negb (bool_decide (new_item = "")) then
       if PyStr.contains new_item (my_list user_data) then
         st_warning ("'" +:+ new_item +:+ "' is already in your list.")
       else
         store_my_list username (my_list user_data ++ [new_item]);;
         st_success ("'" +:+ new_item +:+ "' added to your list!");;
         st_rerun
     else st_warning "Item cannot be empty."
   else mret tt);;
  (if clear_list_button w then
     match my_list user_data with
     | _ :: _ =>
         store_my_list username [];;
         st_success "Your list has been cleared!";;
         st_rerun
     | [] => st_info "Your list is already empty."
     end
   else mret tt);;
  (if logout_button w then
     set_logged_in_user None;;
     set_page "home";;
     st_rerun
   else mret tt).

(** What the list page can do to the session and the file. *)
Definition list_page_effect (x x' : World) (a : gmap string Account) (u : string)
    (d : Account) : Prop :=
  (accounts (session_state x') = Some a /\ accounts_file x' = accounts_file x)
  \/ (exists l, list_step (my_list d) l
        /\ accounts (session_state x') = Some (<[u := set_my_list l d]> a)
        /\ accounts_file x'
           = Some (Json.dumps (Json.of_accounts (<[u := set_my_list l d]> a)))).

Definition alice_with (l : list string) : gmap string Account :=
  {["alice" := mkAccount alice_hash l]}.

Definition press_add (text : string) : Widgets :=
  mkWidgets false false "" "" false false "" "" false false (fun _ _ => false) text
    true false false.

Definition tick (idx : nat) : Widgets :=
  mkWidgets false false "" "" false false "" "" false false
    (fun i _ => Nat.eqb i idx) "" false false false.

(** The dictionary a session without one takes from the file; [None]
    when reading the file raises or is not followed. *)
Definition stored (file : option string) : option (gmap string Account) :=
  match file with
  | None => Some ∅
  | Some bytes =>
      match Json.load bytes with
      | Json.Ok document => Json.to_accounts document
      | Json.DecodeError => Some ∅
      | _ => None
      end
  end.

(** Two damaged files: the single byte 0xFF, which no UTF-8 text holds,
    and a list that starts with an integer of 4301 digits and is never
    closed. *)
Definition stray_byte : string := String "255" "".

Definition long_integer : string :=
  string_of_list_ascii ("["%char :: repeat "1"%char 4301 ++ [" "%char; "x"%char]).

Definition corrupted : Notice :=
  (Warning, "Warning: accounts.json is corrupted or empty. Starting with no accounts.").

Definition fresh : SessionState := mkSession None None None.

(** A new session on a file with the given bytes. *)
Definition starting_on (bytes : string) : World := mkWorld fresh (Some bytes) [].

Definition saved_as (a : gmap string Account) : option string :=
  Some (Json.dumps (Json.of_accounts a)).

Inductive effect (x x' : World) : Prop :=
| effect_keep (a : gmap string Account) :
    accounts (session_state x) = Some a ->
    accounts (session_state x') = Some a ->
    accounts_file x' = accounts_file x ->
    logged_in_user (session_state x') = logged_in_user (session_state x)
    \/ logged_in_user (session_state x') = None
    \/ (exists u, logged_in_user (session_state x') = Some u /\ is_Some (a !! u)) ->
    effect x x'
| effect_register (a : gmap string Account) (u h : string) :
    accounts (session_state x) = Some a ->
    a !! u = None ->
    u <> "" ->
    accounts (session_state x') = Some (<[u := mkAccount h []]> a) ->
    accounts_file x' = saved_as (<[u := mkAccount h []]> a) ->
    logged_in_user (session_state x') = logged_in_user (session_state x) ->
    effect x x'
| effect_list (a : gmap string Account) (u : string) (d : Account) (l : list string) :
    accounts (session_state x) = Some a ->
    logged_in_user (session_state x) = Some u ->
    a !! u = Some d ->
    list_step (my_list d) l ->
    accounts (session_state x') = Some (<[u := set_my_list l d]> a) ->
    accounts_file x' = saved_as (<[u := set_my_list l d]> a) ->
    logged_in_user (session_state x') = Some u ->
    effect x x'.

(** The part of a world that [effect] looks at. *)
Definition core (x : World) : option (gmap string Account) * option string * option string :=
  (accounts (session_state x), logged_in_user (session_state x), accounts_file x).

Definition duplicate_free (a : gmap string Account) : Prop :=
  forall u d, a !! u = Some d -> NoDup (my_list d).

(** The states a session can be in. *)
Inductive reachable (x0 : World) : World -> Prop :=
| reach_start : reachable x0 x0
| reach_run (x : World) (w : Widgets) :
    reachable x0 x -> reachable x0 (after (main_app w) x).

(** A session is tidy when its dictionary has no duplicates in any list,
    or when it has no dictionary yet and the one it will load has none. *)
Definition tidy (x : World) : Prop :=
  match accounts (session_state x) with
  | Some a => duplicate_free a
  | None =>
      session_state x = fresh
      /\ forall a, stored (accounts_file x) = Some a -> duplicate_free a
  end.

Definition two_users : gmap string Account :=
  <["bob" := mkAccount alice_hash ["tea"]]> (alice_with ["milk"]).

Definition press_clear : Widgets :=
  mkWidgets false false "" "" false false "" "" false false (fun _ _ => false) ""
    false true false.

Definition press_logout : Widgets :=
  mkWidgets false false "" "" false false "" "" false false (fun _ _ => false) ""
    false false true.




(** Every account of [a] is in [a'] with the same password hash. *)
Definition keeps_accounts (a a' : gmap string Account) : Prop :=
  forall u d, a !! u = Some d ->
    exists d', a' !! u = Some d' /\ password_hash d' = password_hash d.

Definition named (a : gmap string Account) : Prop :=
  forall u d, a !! u = Some d -> u <> "" /\ ("" ∉ my_list d).

Definition hex_digits : list ascii := list_ascii_of_string "0123456789abcdef".

Definition punctuation (c : ascii) : bool :=
  PyStr.in_range 33 47 c || PyStr.in_range 58 64 c || PyStr.in_range 91 96 c
  || PyStr.in_range 123 126 c.

(* ===================================================================== *)
(** * The library functions on known values                               *)
(* ===================================================================== *)

(** The digests of the empty text and of [abc] given in FIPS 180-4, and a
    text that takes two bytes in UTF-8. *)
Example sha256_of_nothing :
  Sha256.hexdigest (PyStr.encode "")
  = "e3b0c44298fc1c149afbf4c8996fb92427ae41e4649b934ca495991b7852b855".
Proof. vm_compute. reflexivity. Qed.

Example sha256_of_abc :
  Sha256.hexdigest (PyStr.encode "abc")
  = "ba7816bf8f01cfea414140de5dae2223b00361a396177a9cb410ff61f20015ad".
Proof. vm_compute. reflexivity. Qed.

Example utf8_of_e_acute : PyStr.encode (String "233" "") = [195; 169]%Z.
Proof. reflexivity. Qed.

Example strip_keeps_inner_space : PyStr.strip (String "009" "  a b  ") = "a b".
Proof. reflexivity. Qed.

(** Texts that [json.loads] refuses, the empty file among them, and one it
    accepts although it is no dictionary of accounts. *)
Example loads_of_nothing : Json.loads "" = Json.DecodeError.
Proof. reflexivity. Qed.

Example loads_trailing_comma : Json.loads "[1,]" = Json.DecodeError.
Proof. reflexivity. Qed.

Example loads_leading_zero : Json.loads "01" = Json.DecodeError.
Proof. reflexivity. Qed.

Example loads_of_a_list :
  Json.loads " [1, -2.5e3, true, null] "
  = Json.Ok (Json.Array [Json.Number "1"; Json.Number "-2.5e3"; Json.Bool true; Json.Null]).
Proof. reflexivity. Qed.

Example to_accounts_of_a_list : Json.to_accounts (Json.Array []) = None.
Proof. reflexivity. Qed.

(* ===================================================================== *)
(** * Facts about the string operations                                   *)
(* ===================================================================== *)

Module PyStrFacts.
Import PyStr.

Lemma lstrip_split (l : list ascii) :
  exists ws, l = ws ++ lstrip l /\ forallb isspace ws = true.
Proof.
  induction l as [|c l IH]; simpl.
  - exists []. split; reflexivity.
  - destruct (isspace c) eqn:E.
    + destruct IH as (ws & Hl & Hws). exists (c :: ws). simpl.
      rewrite E, Hws. split; [congruence | reflexivity].
    + exists []. split; reflexivity.
Qed.

Lemma lstrip_head (l l' : list ascii) (c : ascii) :
  lstrip l = c :: l' -> isspace c = false.
Proof.
  induction l as [|d l IH]; simpl; [discriminate|].
  destruct (isspace d) eqn:E; [exact IH|].
  intros H. injection H as -> _. exact E.
Qed.

Lemma lstrip_keeps (l : list ascii) (c : ascii) :
  isspace c = false -> lstrip (c :: l) = c :: l.
Proof. intros E. simpl. now rewrite E. Qed.

Lemma lstrip_spaces (ws l : list ascii) :
  forallb isspace ws = true -> lstrip (ws ++ l) = lstrip l.
Proof.
  induction ws as [|c ws IH]; simpl; [reflexivity|].
  intros H. apply andb_true_iff in H as [Hc Hws]. rewrite Hc. auto.
Qed.

Lemma lstrip_all_spaces (ws : list ascii) :
  forallb isspace ws = true -> lstrip ws = [].
Proof.
  intros H. rewrite <- (app_nil_r ws). rewrite lstrip_spaces by exact H. reflexivity.
Qed.

Lemma lstrip_app (l ws : list ascii) :
  lstrip l <> [] -> lstrip (l ++ ws) = lstrip l ++ ws.
Proof.
  induction l as [|c l IH]; simpl; [congruence|].
  destruct (isspace c); [exact IH | reflexivity].
Qed.

Lemma lstrip_idem (l : list ascii) : lstrip (lstrip l) = lstrip l.
Proof.
  destruct (lstrip l) as [|c l'] eqn:E; [reflexivity|].
  apply lstrip_keeps. eapply lstrip_head. exact E.
Qed.

Lemma forallb_rev (ws : list ascii) :
  forallb isspace (rev ws) = forallb isspace ws.
Proof.
  induction ws as [|c ws IH]; simpl; [reflexivity|].
  rewrite forallb_app, IH. simpl. rewrite andb_true_r. apply andb_comm.
Qed.

Lemma rstrip_split (l : list ascii) :
  exists ws, l = rstrip l ++ ws /\ forallb isspace ws = true.
Proof.
  unfold rstrip. destruct (lstrip_split (rev l)) as (ws & Hl & Hws).
  exists (rev ws). split.
  - rewrite <- rev_app_distr, <- Hl. symmetry. apply rev_involutive.
  - now rewrite forallb_rev.
Qed.

Lemma rstrip_spaces (l ws : list ascii) :
  forallb isspace ws = true -> rstrip (l ++ ws) = rstrip l.
Proof.
  intros H. unfold rstrip. rewrite rev_app_distr.
  rewrite lstrip_spaces; [reflexivity|]. now rewrite forallb_rev.
Qed.

Lemma rstrip_idem (l : list ascii) : rstrip (rstrip l) = rstrip l.
Proof. unfold rstrip. now rewrite rev_involutive, lstrip_idem. Qed.

(** Stripping the right end leaves a string whose first character is
    not white space as it is at the left end. *)
Lemma lstrip_rstrip (l : list ascii) :
  lstrip l = l -> lstrip (rstrip l) = rstrip l.
Proof.
  intros Hl. destruct (rstrip_split l) as (ws & Hs & _).
  destruct (rstrip l) as [|c r] eqn:E; [reflexivity|].
  apply lstrip_keeps. rewrite Hs in Hl. simpl in Hl.
  destruct (isspace c) eqn:Ec; [|reflexivity].
  exfalso.
  destruct (lstrip_split (r ++ ws)) as (ws' & Hw & _).
  assert (Hlen : length (lstrip (r ++ ws)) = S (length (r ++ ws))).
  { rewrite Hl. reflexivity. }
  rewrite Hw in Hlen at 2. rewrite length_app in Hlen. lia.
Qed.

Lemma strip_chars_idem (l : list ascii) : strip_chars (strip_chars l) = strip_chars l.
Proof.
  unfold strip_chars.
  rewrite (lstrip_rstrip (lstrip l)) by apply lstrip_idem.
  apply rstrip_idem.
Qed.

Lemma strip_chars_padded (ws1 l ws2 : list ascii) :
  forallb isspace ws1 = true -> forallb isspace ws2 = true ->
  strip_chars (ws1 ++ l ++ ws2) = strip_chars l.
Proof.
  intros H1 H2. unfold strip_chars. rewrite lstrip_spaces by exact H1.
  destruct (lstrip l) as [|c r] eqn:E.
  - destruct (lstrip_split l) as (ws & Hl & Hws). rewrite E, app_nil_r in Hl. subst l.
    rewrite lstrip_all_spaces; [reflexivity|].
    rewrite forallb_app, Hws, H2. reflexivity.
  - rewrite lstrip_app by (rewrite E; discriminate). rewrite E.
    apply rstrip_spaces. exact H2.
Qed.

Lemma strip_idem (s : string) : strip (strip s) = strip s.
Proof.
  unfold strip. rewrite list_ascii_of_string_of_list_ascii.
  fold (strip_chars (list_ascii_of_string s)).
  fold (strip_chars (strip_chars (list_ascii_of_string s))).
  now rewrite strip_chars_idem.
Qed.

Lemma chars_app (s t : string) :
  list_ascii_of_string (s +:+ t) = list_ascii_of_string s ++ list_ascii_of_string t.
Proof. induction s as [|c s IH]; simpl; [reflexivity | now rewrite IH]. Qed.

(** White space added around a text does not change what [strip] returns. *)
Lemma strip_padded (ws1 s ws2 : string) :
  forallb isspace (list_ascii_of_string ws1) = true ->
  forallb isspace (list_ascii_of_string ws2) = true ->
  strip (ws1 +:+ s +:+ ws2) = strip s.
Proof.
  intros H1 H2. unfold strip. rewrite !chars_app.
  fold (strip_chars (list_ascii_of_string ws1 ++ list_ascii_of_string s
                     ++ list_ascii_of_string ws2)).
  rewrite strip_chars_padded by assumption. reflexivity.
Qed.

Lemma contains_spec (x : string) (l : list string) :
  contains x l = true <-> x ∈ l.
Proof.
  unfold contains. rewrite existsb_exists. split.
  - intros (y & Hin & Heq). apply String.eqb_eq in Heq. subst y.
    now apply list_elem_of_In.
  - intros Hin. exists x. split; [now apply list_elem_of_In | apply String.eqb_refl].
Qed.

Lemma contains_false (x : string) (l : list string) :
  contains x l = false <-> x ∉ l.
Proof.
  rewrite <- contains_spec. destruct (contains x l); split; congruence.
Qed.

(** [remove] succeeds exactly on the lists that hold the element, and
    drops its first occurrence. *)
Lemma remove_first (x : string) (l : list string) :
  x ∈ l ->
  exists l1 l2, l = l1 ++ x :: l2 /\ (x ∉ l1) /\ remove x l = Some (l1 ++ l2).
Proof.
  induction l as [|y l IH]; intros Hin.
  - inversion Hin.
  - simpl. destruct (String.eqb y x) eqn:E.
    + apply String.eqb_eq in E. subst y. exists [], l.
      split; [reflexivity|]. split; [apply not_elem_of_nil | reflexivity].
    + apply String.eqb_neq in E.
      apply elem_of_cons in Hin as [Hx | Hin]; [congruence|].
      destruct (IH Hin) as (l1 & l2 & Hl & Hn & Hr).
      exists (y :: l1), l2. rewrite Hr, Hl. split; [reflexivity|].
      split; [|reflexivity].
      intros H. apply elem_of_cons in H as [H | H]; [congruence | contradiction].
Qed.

Lemma remove_none (x : string) (l : list string) :
  x ∉ l -> remove x l = None.
Proof.
  induction l as [|y l IH]; intros Hn; simpl; [reflexivity|].
  destruct (String.eqb y x) eqn:E.
  - apply String.eqb_eq in E. subst y. exfalso. apply Hn. left.
  - rewrite IH; [reflexivity|]. intros H. apply Hn. now right.
Qed.

Lemma remove_sublist (x : string) (l r : list string) :
  remove x l = Some r -> r `sublist_of` l.
Proof.
  revert r. induction l as [|y l IH]; intros r; simpl; [discriminate|].
  destruct (String.eqb y x).
  - intros H. injection H as <-. now apply sublist_cons.
  - destruct (remove x l) as [r'|]; [|discriminate].
    intros H. injection H as <-. apply sublist_skip. now apply IH.
Qed.

End PyStrFacts.

(* ===================================================================== *)
(** * Reasoning about runs                                                *)
(* ===================================================================== *)

Arguments hash_password : simpl never.
Arguments PyStr.strip : simpl never.
Arguments Json.dumps : simpl never.
Arguments Json.loads : simpl never.
Arguments Json.load : simpl never.
Arguments String.append : simpl never.

Lemma bind_value {A B} (m : Script A) (k : A -> Script B) (x x' : World) (a : A) :
  m x = (Value a, x') -> (m ≫= k) x = k a x'.
Proof. intros H. unfold mbind, Script_bind. now rewrite H. Qed.

Lemma bind_raise {A B} (m : Script A) (k : A -> Script B) (x x' : World) (e : Exn) :
  m x = (Raise e, x') -> (m ≫= k) x = (Raise e, x').
Proof. intros H. unfold mbind, Script_bind. now rewrite H. Qed.

(** Unfolds the primitives of the monad in the goal. *)
Ltac run_script :=
  unfold mbind, Script_bind, mret, Script_ret, st_error, st_warning, st_success,
    st_info, st_rerun, show, raise, get_accounts, set_accounts, get_page, set_page,
    get_logged_in_user, set_logged_in_user, update_session, session, read_file,
    write_file, save_accounts, getitem; simpl.

(** What a submitted login does. *)
Lemma login_cases (w : Widgets) (x : World) (a : gmap string Account) :
  accounts (session_state x) = Some a ->
  login_submitted w = true ->
  let username := PyStr.strip (login_username w) in
  let password := PyStr.strip (login_password w) in
  let matches := exists user_data, a !! username = Some user_data
                   /\ password_hash user_data = hash_password password in
  (matches ->
   login_account_page w x =
     (Raise RerunException,
      mkWorld (mkSession (Some a) (Some "list_management") (Some username))
        (accounts_file x)
        (shown x ++ [(Success, "Welcome, " +:+ username
                               +:+ "! You have successfully logged in.")])))
  /\ (~ matches -> login_account_page w x = (Value tt, says x invalid_login))
  /\ (matches \/ ~ matches).
Proof.
  intros Ha Hs username password matches.
  destruct x as [[acc pg usr] file out]. simpl in Ha. subst acc.
  split; [|split].
  - intros (d & Hd & Hh). unfold login_account_page. rewrite Hs.
    fold username password. run_script. rewrite Hd.
    rewrite bool_decide_eq_true_2 by exact Hh. reflexivity.
  - intros Hn. unfold login_account_page. rewrite Hs.
    fold username password. run_script.
    destruct (a !! username) as [d|] eqn:E; [|reflexivity].
    rewrite bool_decide_eq_false_2; [reflexivity|].
    intros Hh. apply Hn. exists d. split; [reflexivity | exact Hh].
  - unfold matches. destruct (a !! username) as [d|] eqn:E.
    + destruct (decide (password_hash d = hash_password password)) as [Hh|Hh].
      * left. eauto.
      * right. intros (d' & Hd & Hh'). congruence.
    + right. intros (d' & Hd & _). discriminate.
Qed.

(** [C1] Login, on the username and password as the function reads them
    (the two fields with surrounding white space stripped): it succeeds
    exactly when the username is a key of the dictionary and the hash of
    the password is the stored one.  A success stores the username as the
    logged-in user, moves to the page "list_management" and reruns; a
    failure of either kind only adds the notice "Invalid username or
    password." and leaves the session and the file as they were. *)
Theorem login_succeeds_iff (w : Widgets) (x : World) (a : gmap string Account) :
  accounts (session_state x) = Some a ->
  login_submitted w = true ->
  let username := PyStr.strip (login_username w) in
  let password := PyStr.strip (login_password w) in
  let matches := exists user_data, a !! username = Some user_data
                   /\ password_hash user_data = hash_password password in
  (matches <-> outcome (login_account_page w) x = Raise RerunException)
  /\ (matches ->
      login_account_page w x =
        (Raise RerunException,
         mkWorld (mkSession (Some a) (Some "list_management") (Some username))
           (accounts_file x)
           (shown x ++ [(Success, "Welcome, " +:+ username
                                  +:+ "! You have successfully logged in.")])))
  /\ (~ matches ->
      login_account_page w x = (Value tt, says x invalid_login)).
Proof.
  intros Ha Hs username password matches.
  destruct (login_cases w x a Ha Hs) as (Hyes & Hno & Hdec).
  fold username password matches in Hyes, Hno, Hdec.
  split; [|split; assumption].
  split.
  - intros Hm. unfold outcome. now rewrite (Hyes Hm).
  - intros Ho. destruct Hdec as [Hm|Hn]; [exact Hm|].
    unfold outcome in Ho. rewrite (Hno Hn) in Ho. discriminate.
Qed.

Lemma login_succeeds_iff_witness :
  accounts (session_state (on_page alice_only "login" None)) = Some alice_only
  /\ login_submitted (submit_login " alice" "Abc123! ") = true
  /\ login_account_page (submit_login " alice" "Abc123! ") (on_page alice_only "login" None)
     = (Raise RerunException,
        mkWorld (mkSession (Some alice_only) (Some "list_management") (Some "alice")) None
          [(Success, "Welcome, alice! You have successfully logged in.")]).
Proof.
  split; [reflexivity|]. split; [reflexivity|].
  apply (login_succeeds_iff (submit_login " alice" "Abc123! ")
           (on_page alice_only "login" None) alice_only eq_refl eq_refl).
  exists (mkAccount alice_hash []). split; vm_compute; reflexivity.
Defined.

(** ** Registration *)

Lemma re_search_spec (cls : ascii -> bool) (P : ascii -> Prop) (s : string) :
  (forall c, cls c = true <-> P c) ->
  PyStr.re_search cls s = true <-> has_char P s.
Proof.
  intros Hc. unfold PyStr.re_search, has_char. rewrite existsb_exists.
  split; intros (c & Hin & Hp); exists c; (split; [exact Hin | now apply Hc]).
Qed.

Lemma in_range_spec (lo hi : ascii) (c : ascii) :
  PyStr.in_range (N_of_ascii lo) (N_of_ascii hi) c = true <-> between lo hi c.
Proof.
  unfold PyStr.in_range, between, PyStr.code.
  rewrite andb_true_iff, !N.leb_le. reflexivity.
Qed.

Lemma one_of_spec (members : string) (c : ascii) :
  PyStr.one_of members c = true <-> In c (list_ascii_of_string members).
Proof.
  unfold PyStr.one_of. rewrite existsb_exists. split.
  - intros (d & Hin & Heq). apply Ascii.eqb_eq in Heq. now subst d.
  - intros Hin. exists c. split; [exact Hin | apply Ascii.eqb_refl].
Qed.

Lemma lower_spec (s : string) :
  PyStr.re_search PyStr.lower s = true <-> has_char (between "a" "z") s.
Proof. apply re_search_spec. intros c. apply (in_range_spec "a" "z"). Qed.

Lemma upper_spec (s : string) :
  PyStr.re_search PyStr.upper s = true <-> has_char (between "A" "Z") s.
Proof. apply re_search_spec. intros c. apply (in_range_spec "A" "Z"). Qed.

Lemma digit_spec (s : string) :
  PyStr.re_search PyStr.digit s = true <-> has_char (between "0" "9") s.
Proof. apply re_search_spec. intros c. apply (in_range_spec "0" "9"). Qed.

Lemma special_spec (s : string) :
  PyStr.re_search (PyStr.one_of special_characters) s = true
  <-> has_char (fun c => In c (list_ascii_of_string special_characters)) s.
Proof. apply re_search_spec. intros c. apply one_of_spec. Qed.

(** The checks of the form, as the booleans it computes, against the
    rules. *)
Lemma checks_spec (a : gmap string Account) (username password : string) :
  (bool_decide (is_Some (a !! username)) = false <-> holds a username password UsernameIsNew)
  /\ (bool_decide (username = "") = false <-> holds a username password UsernameNotEmpty)
  /\ ((PyStr.len password <? 6) = false <-> holds a username password PasswordLength)
  /\ (negb (PyStr.re_search PyStr.lower password) = false
      <-> holds a username password PasswordLower)
  /\ (negb (PyStr.re_search PyStr.upper password) = false
      <-> holds a username password PasswordUpper)
  /\ (negb (PyStr.re_search PyStr.digit password) = false
      <-> holds a username password PasswordDigit)
  /\ (negb (PyStr.re_search (PyStr.one_of special_characters) password) = false
      <-> holds a username password PasswordSpecial).
Proof.
  simpl. repeat split.
  - intros H. apply bool_decide_eq_false in H.
    destruct (a !! username) eqn:E; [|reflexivity]. exfalso. apply H. eauto.
  - intros H. apply bool_decide_eq_false. rewrite H. intros [? ?]. discriminate.
  - intros H. now apply bool_decide_eq_false in H.
  - intros H. now apply bool_decide_eq_false.
  - intros H. apply Nat.ltb_ge in H. exact H.
  - intros H. apply Nat.ltb_ge. exact H.
  - intros H. apply negb_false_iff in H. now apply lower_spec.
  - intros H. apply negb_false_iff. now apply lower_spec.
  - intros H. apply negb_false_iff in H. now apply upper_spec.
  - intros H. apply negb_false_iff. now apply upper_spec.
  - intros H. apply negb_false_iff in H. now apply digit_spec.
  - intros H. apply negb_false_iff. now apply digit_spec.
  - intros H. apply negb_false_iff in H. now apply special_spec.
  - intros H. apply negb_false_iff. now apply special_spec.
Qed.

(** What a submitted registration does, by the first check that fails. *)
Lemma register_cases (w : Widgets) (x : World) (a : gmap string Account) :
  accounts (session_state x) = Some a ->
  register_submitted w = true ->
  let username := PyStr.strip (register_username w) in
  let password := PyStr.strip (register_password w) in
  (exists r, (forall r', rank r' < rank r -> holds a username password r')
             /\ ~ holds a username password r
             /\ register_account_page w x = (Value tt, says x (Error, complaint r)))
  \/ ((forall r, holds a username password r)
      /\ register_account_page w x
         = (Raise RerunException, registered x a username password)).
Proof.
  intros Ha Hs username password.
  destruct x as [[acc pg usr] file out]. simpl in Ha. subst acc.
  destruct (checks_spec a username password)
    as (C1 & C2 & C3 & C4 & C5 & C6 & C7).
  unfold register_account_page. rewrite Hs. fold username password. run_script.
  destruct (bool_decide (is_Some (a !! username))) eqn:E1.
  { left. exists UsernameIsNew. split; [intros r' Hr; destruct r'; simpl in Hr; lia|].
    split; [|reflexivity]. intros H. apply C1 in H. discriminate. }
  destruct (bool_decide (username = "")) eqn:E2.
  { left. exists UsernameNotEmpty. split.
    - intros r' Hr. destruct r'; simpl in Hr; try lia. now apply C1.
    - split; [|reflexivity]. intros H. apply C2 in H. discriminate. }
  destruct (PyStr.len password <? 6) eqn:E3.
  { left. exists PasswordLength. split.
    - intros r' Hr. destruct r'; simpl in Hr; try lia; [now apply C1 | now apply C2].
    - split; [|reflexivity]. intros H. apply C3 in H. discriminate. }
  destruct (negb (PyStr.re_search PyStr.lower password)) eqn:E4.
  { left. exists PasswordLower. split.
    - intros r' Hr. destruct r'; simpl in Hr; try lia;
        [now apply C1 | now apply C2 | now apply C3].
    - split; [|reflexivity]. intros H. apply C4 in H. discriminate. }
  destruct (negb (PyStr.re_search PyStr.upper password)) eqn:E5.
  { left. exists PasswordUpper. split.
    - intros r' Hr. destruct r'; simpl in Hr; try lia;
        [now apply C1 | now apply C2 | now apply C3 | now apply C4].
    - split; [|reflexivity]. intros H. apply C5 in H. discriminate. }
  destruct (negb (PyStr.re_search PyStr.digit password)) eqn:E6.
  { left. exists PasswordDigit. split.
    - intros r' Hr. destruct r'; simpl in Hr; try lia;
        [now apply C1 | now apply C2 | now apply C3 | now apply C4 | now apply C5].
    - split; [|reflexivity]. intros H. apply C6 in H. discriminate. }
  destruct (negb (PyStr.re_search (PyStr.one_of special_characters) password)) eqn:E7.
  { left. exists PasswordSpecial. split.
    - intros r' Hr. destruct r'; simpl in Hr; try lia;
        [now apply C1 | now apply C2 | now apply C3 | now apply C4 | now apply C5
        | now apply C6].
    - split; [|reflexivity]. intros H. apply C7 in H. discriminate. }
  right. split; [|reflexivity].
  intros r. destruct r;
    [now apply C1 | now apply C2 | now apply C3 | now apply C4 | now apply C5
    | now apply C6 | now apply C7].
Qed.

Lemma rank_inj (r r' : Rule) : rank r = rank r' -> r = r'.
Proof. destruct r, r'; simpl; intros H; try reflexivity; discriminate. Qed.

(** [C2] A submitted registration checks the seven rules in their order
    on the stripped username and password: when [r] is the first rule
    that does not hold, the run shows the complaint of [r] and nothing
    else changes: the dictionary of the session, the file and the rest of
    the session are as before. *)
Theorem registration_reports_first_violation
    (w : Widgets) (x : World) (a : gmap string Account) (r : Rule) :
  accounts (session_state x) = Some a ->
  register_submitted w = true ->
  let username := PyStr.strip (register_username w) in
  let password := PyStr.strip (register_password w) in
  (forall r', rank r' < rank r -> holds a username password r') ->
  ~ holds a username password r ->
  register_account_page w x = (Value tt, says x (Error, complaint r))
  /\ session_state (after (register_account_page w) x) = session_state x
  /\ accounts_file (after (register_account_page w) x) = accounts_file x.
Proof.
  intros Ha Hs username password Hbefore Hr.
  assert (Hrun : register_account_page w x = (Value tt, says x (Error, complaint r))).
  { destruct (register_cases w x a Ha Hs) as [(r0 & Hb0 & Hr0 & Hrun) | (Hall & _)].
    - fold username password in Hb0, Hr0.
      assert (r0 = r) as ->; [|exact Hrun].
      apply rank_inj.
      destruct (Nat.lt_trichotomy (rank r0) (rank r)) as [Hlt | [Heq | Hgt]].
      + exfalso. apply Hr0. now apply Hbefore.
      + exact Heq.
      + exfalso. apply Hr. now apply Hb0.
    - exfalso. apply Hr. apply Hall. }
  split; [exact Hrun|]. unfold after. rewrite Hrun. split; reflexivity.
Qed.

(** [C3] A submitted registration whose stripped username and password
    satisfy the seven rules adds the username to the dictionary with the
    hash of the stripped password and an empty list, changes no other
    entry, writes the whole new dictionary to the file, moves to the page
    "login" and reruns. *)
Theorem registration_creates_account
    (w : Widgets) (x : World) (a : gmap string Account) :
  accounts (session_state x) = Some a ->
  register_submitted w = true ->
  let username := PyStr.strip (register_username w) in
  let password := PyStr.strip (register_password w) in
  let a' := <[username := mkAccount (hash_password password) []]> a in
  (forall r, holds a username password r) ->
  register_account_page w x = (Raise RerunException, registered x a username password)
  /\ a !! username = None
  /\ a' !! username = Some (mkAccount (hash_password password) [])
  /\ (forall other, other <> username -> a' !! other = a !! other)
  /\ accounts (session_state (after (register_account_page w) x)) = Some a'
  /\ accounts_file (after (register_account_page w) x)
     = Some (Json.dumps (Json.of_accounts a'))
  /\ page (session_state (after (register_account_page w) x)) = Some "login".
Proof.
  intros Ha Hs username password a' Hall.
  assert (Hrun : register_account_page w x
                 = (Raise RerunException, registered x a username password)).
  { destruct (register_cases w x a Ha Hs) as [(r0 & _ & Hr0 & _) | (_ & Hrun)].
    - exfalso. apply Hr0. apply Hall.
    - exact Hrun. }
  split; [exact Hrun|].
  split; [exact (Hall UsernameIsNew)|].
  split; [apply lookup_insert_eq|].
  split; [intros other Hne; now apply lookup_insert_ne|].
  unfold after. rewrite Hrun. repeat split; reflexivity.
Qed.

Lemma check_spec (a : gmap string Account) (username password : string) (r : Rule) :
  check a username password r = true <-> holds a username password r.
Proof.
  destruct (checks_spec a username password)
    as (C1 & C2 & C3 & C4 & C5 & C6 & C7).
  destruct r; unfold check;
    [rewrite <- C1 | rewrite <- C2 | rewrite <- C3 | rewrite <- C4
    | rewrite <- C5 | rewrite <- C6 | rewrite <- C7];
    (rewrite ?negb_true_iff, ?negb_false_iff; reflexivity).
Qed.

Lemma check_false (a : gmap string Account) (username password : string) (r : Rule) :
  check a username password r = false -> ~ holds a username password r.
Proof. intros H Hh. apply check_spec in Hh. congruence. Qed.

Lemma registration_reports_first_violation_witness :
  accounts (session_state (on_page ∅ "register" None)) = Some ∅
  /\ register_submitted (submit_registration " alice " "abc123!") = true
  /\ register_account_page (submit_registration " alice " "abc123!")
       (on_page ∅ "register" None)
     = (Value tt,
        says (on_page ∅ "register" None)
          (Error, "Password must contain at least one uppercase letter.")).
Proof.
  split; [reflexivity|]. split; [reflexivity|].
  apply (registration_reports_first_violation
           (submit_registration " alice " "abc123!")
           (on_page ∅ "register" None) ∅ PasswordUpper eq_refl eq_refl).
  - intros r' Hr. apply check_spec. destruct r'; simpl in Hr; try lia;
      vm_compute; reflexivity.
  - apply check_false. vm_compute. reflexivity.
Defined.

Lemma registration_creates_account_witness :
  accounts (session_state (on_page ∅ "register" None)) = Some ∅
  /\ register_submitted (submit_registration " alice " "Abc123! ") = true
  /\ accounts (session_state
       (after (register_account_page (submit_registration " alice " "Abc123! "))
          (on_page ∅ "register" None)))
     = Some (<[PyStr.strip " alice " :=
                 mkAccount (hash_password (PyStr.strip "Abc123! ")) []]> ∅).
Proof.
  split; [reflexivity|]. split; [reflexivity|].
  apply (registration_creates_account (submit_registration " alice " "Abc123! ")
           (on_page ∅ "register" None) ∅ eq_refl eq_refl).
  intros r. apply check_spec. destruct r; vm_compute; reflexivity.
Defined.

(** ** Login reads stripped fields *)

Lemma login_only_reads_stripped (w : Widgets) (x : World) (username password : string) :
  PyStr.strip username = PyStr.strip (login_username w) ->
  PyStr.strip password = PyStr.strip (login_password w) ->
  login_account_page (with_login username password w) x = login_account_page w x.
Proof.
  intros Hu Hp. unfold login_account_page. simpl. now rewrite Hu, Hp.
Qed.

(** A registration that reruns was submitted on a session with a
    dictionary, and its fields satisfied every rule. *)
Lemma register_rerun (w : Widgets) (x : World) :
  outcome (register_account_page w) x = Raise RerunException ->
  exists a, accounts (session_state x) = Some a
    /\ register_submitted w = true
    /\ after (register_account_page w) x
       = registered x a (PyStr.strip (register_username w))
           (PyStr.strip (register_password w)).
Proof.
  intros Ho. destruct (register_submitted w) eqn:Hs.
  - destruct (accounts (session_state x)) as [a|] eqn:Ha.
    + exists a. split; [reflexivity|]. split; [reflexivity|].
      destruct (register_cases w x a Ha Hs) as [(r & _ & _ & Hrun) | (_ & Hrun)].
      * unfold outcome in Ho. rewrite Hrun in Ho. discriminate.
      * unfold after. now rewrite Hrun.
    + exfalso. unfold outcome, register_account_page in Ho. rewrite Hs in Ho.
      destruct x as [[acc pg usr] file out]. simpl in Ha. subst acc.
      revert Ho. run_script. discriminate.
  - exfalso. unfold outcome, register_account_page in Ho. rewrite Hs in Ho.
    discriminate.
Qed.

(** [C10] The login form strips its two fields before it looks the
    username up and before it hashes the password: a run with the fields
    [u], [p] is the run with [strip u], [strip p], and white space added
    around either field changes nothing.  So after a registration that
    went through, logging in with the same username and password, each
    with white space around it, succeeds; and what the stored hash is
    compared with is the hash of the stripped password, which in general
    is not the hash of the text typed. *)
Theorem login_strips_inputs (w : Widgets) (x : World) (ws1 ws2 ws3 ws4 : string) :
  blank ws1 -> blank ws2 -> blank ws3 -> blank ws4 ->
  login_account_page
    (with_login (PyStr.strip (login_username w)) (PyStr.strip (login_password w)) w) x
  = login_account_page w x
  /\ login_account_page
       (with_login (ws1 +:+ login_username w +:+ ws2)
                   (ws3 +:+ login_password w +:+ ws4) w) x
     = login_account_page w x
  /\ (forall rw : Widgets,
        outcome (register_account_page rw) x = Raise RerunException ->
        outcome (login_account_page
                   (submit_login (ws1 +:+ register_username rw +:+ ws2)
                                 (ws3 +:+ register_password rw +:+ ws4)))
                (after (register_account_page rw) x)
        = Raise RerunException)
  /\ (exists (typed : string) (a : gmap string Account),
        outcome (login_account_page (submit_login "alice" typed))
                (on_page a "login" None) = Raise RerunException
        /\ a !! "alice" = Some (mkAccount (hash_password (PyStr.strip typed)) [])
        /\ hash_password typed <> hash_password (PyStr.strip typed)).
Proof.
  intros H1 H2 H3 H4. split; [|split; [|split]].
  - apply login_only_reads_stripped; apply PyStrFacts.strip_idem.
  - apply login_only_reads_stripped; now apply PyStrFacts.strip_padded.
  - intros rw Ho.
    destruct (register_rerun rw x Ho) as (a & Ha & Hs & Hafter).
    rewrite Hafter.
    set (lw := submit_login _ _).
    set (u := PyStr.strip (register_username rw)).
    set (p := PyStr.strip (register_password rw)).
    destruct (login_cases lw (registered x a u p)
                (<[u := mkAccount (hash_password p) []]> a) eq_refl eq_refl)
      as (Hyes & _ & _).
    unfold outcome. rewrite Hyes; [reflexivity|].
    exists (mkAccount (hash_password p) []).
    unfold lw. simpl.
    rewrite !PyStrFacts.strip_padded by assumption.
    fold u p. split; [apply lookup_insert_eq | reflexivity].
  - exists "Abc123! ", alice_only. split; [|split].
    + vm_compute. reflexivity.
    + vm_compute. reflexivity.
    + vm_compute. discriminate.
Qed.

Lemma login_strips_inputs_witness :
  blank " " /\ blank "" /\
  login_account_page
    (with_login (" " +:+ "alice" +:+ "") (" " +:+ "Abc123!" +:+ " ")
       (submit_login "alice" "Abc123!")) (on_page alice_only "login" None)
  = login_account_page (submit_login "alice" "Abc123!") (on_page alice_only "login" None).
Proof.
  split; [reflexivity|]. split; [reflexivity|].
  apply (login_strips_inputs (submit_login "alice" "Abc123!")
           (on_page alice_only "login" None) " " "" " " " ");
    reflexivity.
Defined.

(** ** The list page *)

Lemma store_my_list_run (x : World) (a : gmap string Account) (u : string) (d : Account)
    (l : list string) :
  accounts (session_state x) = Some a ->
  a !! u = Some d ->
  store_my_list (Some u) l x = (Value tt, with_list x a u d l []).
Proof.
  intros Ha Hd. destruct x as [[acc pg usr] file out]. simpl in Ha. subst acc.
  unfold store_my_list, with_list. run_script. rewrite Hd. simpl.
  now rewrite app_nil_r.
Qed.

Lemma first_ticked_elem (w : Widgets) (idx : nat) (items : list string) (y : string) :
  first_ticked w idx items = Some y -> y ∈ items.
Proof.
  revert idx. induction items as [|item rest IH]; intros idx; simpl; [discriminate|].
  destruct (remove_item w idx item).
  - intros H. injection H as ->. left.
  - intros H. right. eapply IH. exact H.
Qed.

(** The loop stops at the first ticked checkbox: it removes the first
    occurrence of that item, saves and reruns.  Without a ticked checkbox
    it does nothing. *)
Lemma removal_loop_run (w : Widgets) (x : World) (a : gmap string Account) (u : string)
    (d : Account) (idx : nat) (items : list string) :
  accounts (session_state x) = Some a ->
  a !! u = Some d ->
  (forall y, y ∈ items -> y ∈ my_list d) ->
  removal_loop w (Some u) idx items x =
    match first_ticked w idx items with
    | None => (Value tt, x)
    | Some y =>
        match PyStr.remove y (my_list d) with
        | Some l => (Raise RerunException, with_list x a u d l (deletion_notices y))
        | None => (Raise ValueError, x)
        end
    end.
Proof.
  intros Ha Hd. revert idx.
  induction items as [|item rest IH]; intros idx Hsub; simpl; [reflexivity|].
  destruct (remove_item w idx item) eqn:Et.
  - assert (Hin : item ∈ my_list d) by (apply Hsub; left).
    destruct (PyStrFacts.remove_first item (my_list d) Hin) as (l1 & l2 & _ & _ & Hr).
    rewrite Hr.
    destruct x as [[acc pg usr] file out]. simpl in Ha. subst acc.
    unfold store_my_list, with_list, deletion_notices. run_script. rewrite Hd. simpl.
    rewrite (proj2 (PyStrFacts.contains_spec item (my_list d)) Hin). simpl.
    rewrite Hr. simpl. rewrite Hd. simpl.
    rewrite <- !app_assoc. reflexivity.
  - unfold mbind at 1. unfold Script_bind. unfold mret, Script_ret.
    apply IH. intros y Hy. apply Hsub. now right.
Qed.

Arguments removal_loop : simpl never.

Lemma manage_tick (w : Widgets) (x : World) (a : gmap string Account) (u : string)
    (d : Account) (y : string) (l : list string) :
  logged_in_user (session_state x) = Some u ->
  accounts (session_state x) = Some a ->
  a !! u = Some d ->
  first_ticked w 0 (my_list d) = Some y ->
  PyStr.remove y (my_list d) = Some l ->
  manage_user_list_page w x
  = (Raise RerunException, with_list x a u d l (deletion_notices y)).
Proof.
  intros Hu Ha Hd Ht Hr.
  destruct x as [[acc pg usr] file out]. simpl in Hu, Ha. subst acc usr.
  pose proof (removal_loop_run w (mkWorld (mkSession (Some a) pg (Some u)) file out)
                a u d 0 (my_list d) eq_refl Hd (fun y H => H)) as Hloop.
  rewrite Ht, Hr in Hloop.
  unfold manage_user_list_page. run_script. rewrite Hd. simpl.
  destruct (my_list d) as [|i r] eqn:El; [discriminate|].
  rewrite Hloop. reflexivity.
Qed.

Lemma manage_quiet (w : Widgets) (x : World) (a : gmap string Account) (u : string)
    (d : Account) :
  logged_in_user (session_state x) = Some u ->
  accounts (session_state x) = Some a ->
  a !! u = Some d ->
  first_ticked w 0 (my_list d) = None ->
  manage_user_list_page w x
  = below_the_list w (Some u) d (notes x (listing (my_list d))).
Proof.
  intros Hu Ha Hd Ht.
  pose proof (removal_loop_run w x a u d 0 (my_list d) Ha Hd (fun y H => H)) as Hloop.
  rewrite Ht in Hloop.
  unfold manage_user_list_page.
  erewrite (bind_value get_logged_in_user);
    [|unfold get_logged_in_user; rewrite Hu; reflexivity].
  erewrite (bind_value get_accounts); [|unfold get_accounts; rewrite Ha; reflexivity].
  erewrite (bind_value (getitem a (Some u))); [|unfold getitem; rewrite Hd; reflexivity].
  erewrite bind_value; [reflexivity|].
  destruct (my_list d) as [|i r] eqn:El.
  - reflexivity.
  - rewrite Hloop. unfold notes. simpl. rewrite app_nil_r. now destruct x.
Qed.

Ltac crunch Hd := unfold store_my_list; run_script; rewrite ?Hd; simpl.

Lemma below_effect (w : Widgets) (x : World) (a : gmap string Account) (u : string)
    (d : Account) :
  accounts (session_state x) = Some a ->
  a !! u = Some d ->
  list_page_effect x (after (below_the_list w (Some u) d) x) a u d.
Proof.
  intros Ha Hd.
  destruct x as [[acc pg usr] file out]. simpl in Ha. subst acc.
  unfold list_page_effect, after, below_the_list.
  set (new_item := PyStr.strip (add_new_item_input w)).
  destruct (add_item_button w); [destruct (bool_decide (new_item = "")) eqn:En;
    [|destruct (PyStr.contains new_item (my_list d)) eqn:Ec]|].
  - destruct (clear_list_button w), (my_list d) eqn:El, (logout_button w);
      crunch Hd; try (left; split; reflexivity);
      right; exists []; (split; [right; right; reflexivity | split; reflexivity]).
  - destruct (clear_list_button w), (my_list d) eqn:El, (logout_button w);
      crunch Hd; try (left; split; reflexivity);
      right; exists []; (split; [right; right; reflexivity | split; reflexivity]).
  - crunch Hd. right. exists (my_list d ++ [new_item]). split; [|split; reflexivity].
    right. left. exists new_item. split; [|split; [|reflexivity]].
    + now apply bool_decide_eq_false in En.
    + now apply PyStrFacts.contains_false.
  - destruct (clear_list_button w), (my_list d) eqn:El, (logout_button w);
      crunch Hd; try (left; split; reflexivity);
      right; exists []; (split; [right; right; reflexivity | split; reflexivity]).
Qed.

Lemma manage_effect (w : Widgets) (x : World) (a : gmap string Account) (u : string)
    (d : Account) :
  logged_in_user (session_state x) = Some u ->
  accounts (session_state x) = Some a ->
  a !! u = Some d ->
  list_page_effect x (after (manage_user_list_page w) x) a u d.
Proof.
  intros Hu Ha Hd.
  destruct (first_ticked w 0 (my_list d)) as [y|] eqn:Et.
  - pose proof (first_ticked_elem w 0 _ y Et) as Hin.
    destruct (PyStrFacts.remove_first y (my_list d) Hin) as (l1 & l2 & _ & _ & Hr).
    unfold after. rewrite (manage_tick w x a u d y (l1 ++ l2) Hu Ha Hd Et Hr).
    right. exists (l1 ++ l2). split; [left; eauto | split; reflexivity].
  - unfold after. rewrite (manage_quiet w x a u d Hu Ha Hd Et).
    apply (below_effect w (notes x (listing (my_list d))) a u d); [exact Ha | exact Hd].
Qed.

Lemma first_ticked_at (w : Widgets) (k : nat) (items : list string) (i : nat)
    (item : string) :
  items !! i = Some item ->
  remove_item w (k + i) item = true ->
  (forall j y, j < i -> items !! j = Some y -> remove_item w (k + j) y = false) ->
  first_ticked w k items = Some item.
Proof.
  revert k i. induction items as [|z rest IH]; intros k i Hi Ht Hb; [discriminate|].
  simpl. destruct i as [|i].
  - simpl in Hi. injection Hi as ->. rewrite Nat.add_0_r in Ht. now rewrite Ht.
  - assert (Hz : remove_item w k z = false).
    { rewrite <- (Nat.add_0_r k). apply Hb; [lia | reflexivity]. }
    rewrite Hz.
    apply (IH (S k) i).
    + exact Hi.
    + now rewrite Nat.add_succ_comm.
    + intros j y Hj Hy. rewrite Nat.add_succ_comm. apply Hb; [lia | exact Hy].
Qed.

(** [C5] Removing an item.  When the checkbox of the item at position
    [idx] is ticked and no checkbox above it is, the page removes the
    first occurrence of that item from the list of the logged-in user:
    the items before and after it stay, in their order.  The dictionary is
    written to the file and the script reruns; the entries of the other
    usernames, and the password hash of this one, are untouched. *)
Theorem remove_item_behaviour (w : Widgets) (x : World) (a : gmap string Account)
    (u : string) (d : Account) (idx : nat) (item : string) :
  logged_in_user (session_state x) = Some u ->
  accounts (session_state x) = Some a ->
  a !! u = Some d ->
  my_list d !! idx = Some item ->
  remove_item w idx item = true ->
  (forall j y, j < idx -> my_list d !! j = Some y -> remove_item w j y = false) ->
  exists l1 l2,
    my_list d = l1 ++ item :: l2
    /\ (item ∉ l1)
    /\ manage_user_list_page w x
       = (Raise RerunException, with_list x a u d (l1 ++ l2) (deletion_notices item))
    /\ (forall other, other <> u ->
          <[u := set_my_list (l1 ++ l2) d]> a !! other = a !! other)
    /\ <[u := set_my_list (l1 ++ l2) d]> a !! u
       = Some (mkAccount (password_hash d) (l1 ++ l2)).
Proof.
  intros Hu Ha Hd Hi Ht Hb.
  assert (Hin : item ∈ my_list d) by (eapply list_elem_of_lookup_2; exact Hi).
  destruct (PyStrFacts.remove_first item (my_list d) Hin) as (l1 & l2 & Hl & Hn & Hr).
  exists l1, l2. split; [exact Hl|]. split; [exact Hn|].
  split; [|split].
  - apply manage_tick; try assumption.
    apply (first_ticked_at w 0 (my_list d) idx item Hi Ht Hb).
  - intros other Hne. now apply lookup_insert_ne.
  - apply lookup_insert_eq.
Qed.

Lemma remove_item_behaviour_witness :
  ["milk"; "eggs"; "milk"] !! 2 = Some "milk"
  /\ remove_item (tick 2) 2 "milk" = true
  /\ exists l1 l2,
       ["milk"; "eggs"; "milk"] = l1 ++ "milk" :: l2
       /\ ("milk" ∉ l1)
       /\ manage_user_list_page (tick 2)
            (on_page (alice_with ["milk"; "eggs"; "milk"]) "list_management"
               (Some "alice"))
          = (Raise RerunException,
             with_list
               (on_page (alice_with ["milk"; "eggs"; "milk"]) "list_management"
                  (Some "alice"))
               (alice_with ["milk"; "eggs"; "milk"]) "alice"
               (mkAccount alice_hash ["milk"; "eggs"; "milk"]) (l1 ++ l2)
               (deletion_notices "milk")).
Proof.
  split; [reflexivity|]. split; [reflexivity|].
  destruct (remove_item_behaviour (tick 2)
              (on_page (alice_with ["milk"; "eggs"; "milk"]) "list_management"
                 (Some "alice"))
              (alice_with ["milk"; "eggs"; "milk"]) "alice"
              (mkAccount alice_hash ["milk"; "eggs"; "milk"]) 2 "milk"
              eq_refl eq_refl eq_refl eq_refl eq_refl)
    as (l1 & l2 & Hl & Hn & Hrun & _).
  - intros j y Hj _. destruct j as [|[|j]]; [reflexivity | reflexivity | lia].
  - exists l1, l2. split; [exact Hl|]. split; [exact Hn | exact Hrun].
Defined.

(* ===================================================================== *)
(** * Facts about the JSON documents                                      *)
(* ===================================================================== *)

Module JsonFacts.
Import Json.

Lemma scanstring_escape (c : ascii) (l : list ascii) :
  scanstring (escape c ++ l) = push c (scanstring l).
Proof.
  destruct c as [[] [] [] [] [] [] [] []]; reflexivity.
Qed.

Lemma scanstring_encoded (cs rest : list ascii) :
  scanstring (flat_map escape cs ++ quote :: rest) = Ok (cs, rest).
Proof.
  induction cs as [|c cs IH]; simpl.
  - reflexivity.
  - rewrite <- app_assoc, scanstring_escape, IH. reflexivity.
Qed.

Lemma value_induction (P : value -> Prop) :
  P Null ->
  (forall b, P (Bool b)) ->
  (forall n, P (Number n)) ->
  (forall s, P (Str s)) ->
  (forall items, Forall P items -> P (Array items)) ->
  (forall members, Forall (fun kv => P (snd kv)) members -> P (Object members)) ->
  forall v, P v.
Proof.
  intros HN HB HNum HS HA HO.
  fix IH 1. intros [| b | n | s | items | members].
  - exact HN.
  - apply HB.
  - apply HNum.
  - apply HS.
  - apply HA. induction items as [|x items IHl]; constructor; [apply IH | exact IHl].
  - apply HO. induction members as [|[k x] members IHl]; constructor;
      [apply IH | exact IHl].
Qed.

Lemma skip_ws_spaces (n : nat) (s : list ascii) :
  skip_ws (repeat " "%char n ++ s) = skip_ws s.
Proof. induction n as [|n IH]; simpl; [reflexivity | exact IH]. Qed.

Lemma skip_ws_indent (level : nat) (s : list ascii) :
  skip_ws (newline_indent level ++ s) = skip_ws s.
Proof.
  unfold newline_indent.
  change (skip_ws (repeat " "%char (4 * level) ++ s) = skip_ws s).
  apply skip_ws_spaces.
Qed.

Lemma skip_ws_stop (c : ascii) (s : list ascii) :
  is_ws c = false -> skip_ws (c :: s) = c :: s.
Proof. intros H. simpl. now rewrite H. Qed.

Lemma encode_head (level : nat) (v : value) :
  plain v = true ->
  exists c t, encode level v = c :: t /\ opener c.
Proof.
  destruct v as [| [] | n | s | [|x items] | [|kv members]]; simpl; intros Hp;
    try discriminate; eexists _, _; (split; [reflexivity | repeat split]).
Qed.

Lemma skip_ws_encode (level : nat) (v : value) (s : list ascii) :
  plain v = true -> skip_ws (encode level v ++ s) = encode level v ++ s.
Proof.
  intros Hp. destruct (encode_head level v Hp) as (c & t & -> & Hc & _).
  simpl. now rewrite Hc.
Qed.

Lemma encode_array (level : nat) (x : value) (xs : list value) :
  encode level (Array (x :: xs))
  = "["%char :: newline_indent (S level)
    ++ join (separator (S level)) (map (encode (S level)) (x :: xs))
    ++ newline_indent level ++ ["]"%char].
Proof. reflexivity. Qed.

Lemma encode_object (level : nat) (kv : string * value) (ms : list (string * value)) :
  encode level (Object (kv :: ms))
  = "{"%char :: newline_indent (S level)
    ++ join (separator (S level)) (map (encode_member (S level)) (kv :: ms))
    ++ newline_indent level ++ ["}"%char].
Proof. reflexivity. Qed.

Lemma join_one (sep p : list ascii) : join sep [p] = p.
Proof. reflexivity. Qed.

Lemma join_more (sep p q : list ascii) (ps : list (list ascii)) :
  join sep (p :: q :: ps) = p ++ sep ++ join sep (q :: ps).
Proof. reflexivity. Qed.

Lemma scan_once_array (fuel depth : nat) (s : list ascii) :
  scan_once (S fuel) (S depth) ("["%char :: s)
  = match skip_ws s with
    | d :: s2 =>
        if Ascii.eqb d "]" then Ok (Array [], s2)
        else bind (parse_items fuel depth (d :: s2)) (fun p => Ok (Array (fst p), snd p))
    | [] => DecodeError
    end.
Proof. reflexivity. Qed.

Lemma scan_once_object (fuel depth : nat) (s : list ascii) :
  scan_once (S fuel) (S depth) ("{"%char :: s)
  = match skip_ws s with
    | d :: s2 =>
        if Ascii.eqb d "}" then Ok (Object [], s2)
        else if Ascii.eqb d quote then
          bind (parse_members fuel depth s2) (fun p => Ok (Object (fst p), snd p))
        else DecodeError
    | [] => DecodeError
    end.
Proof. reflexivity. Qed.

Lemma parse_items_step (fuel depth : nat) (s : list ascii) :
  parse_items (S fuel) depth s
  = bind (scan_once fuel depth s) (fun v =>
    match skip_ws (snd v) with
    | d :: s2 =>
        if Ascii.eqb d "]" then Ok ([fst v], s2)
        else if Ascii.eqb d "," then
          bind (parse_items fuel depth (skip_ws s2)) (fun p => Ok (fst v :: fst p, snd p))
        else DecodeError
    | [] => DecodeError
    end).
Proof. reflexivity. Qed.

Lemma parse_members_step (fuel depth : nat) (s : list ascii) :
  parse_members (S fuel) depth s
  = bind (scanstring s) (fun k =>
    match skip_ws (snd k) with
    | c :: s1 =>
        if Ascii.eqb c ":" then
          bind (scan_once fuel depth (skip_ws s1)) (fun v =>
          let member := (string_of_list_ascii (fst k), fst v) in
          match skip_ws (snd v) with
          | d :: s2 =>
              if Ascii.eqb d "}" then Ok ([member], s2)
              else if Ascii.eqb d "," then
                match skip_ws s2 with
                | q :: s3 =>
                    if Ascii.eqb q quote then
                      bind (parse_members fuel depth s3)
                        (fun p => Ok (member :: fst p, snd p))
                    else DecodeError
                | [] => DecodeError
                end
              else DecodeError
          | [] => DecodeError
          end)
        else DecodeError
    | [] => DecodeError
    end).
Proof. reflexivity. Qed.

(** ** The fuel of the decoder *)

Lemma skip_ws_length (s : list ascii) : length (skip_ws s) <= length s.
Proof.
  induction s as [|c s IH]; cbn [skip_ws]; [lia|].
  destruct (is_ws c); simpl; lia.
Qed.

Lemma skip_ws_cons (s : list ascii) (d : ascii) (t : list ascii) :
  skip_ws s = d :: t -> length t < length s.
Proof. intros H. pose proof (skip_ws_length s) as Hl. rewrite H in Hl. simpl in Hl. lia. Qed.

Lemma starts_with_length (p s r : list ascii) :
  starts_with p s = Some r -> length r + length p = length s.
Proof.
  revert s. induction p as [|a p IH]; intros [|b s] H; simpl in H.
  - injection H as <-. reflexivity.
  - injection H as <-. simpl. lia.
  - discriminate.
  - destruct (Ascii.eqb a b); [|discriminate]. apply IH in H. simpl. lia.
Qed.

Lemma span_digits_length (s : list ascii) : length (snd (span_digits s)) <= length s.
Proof.
  induction s as [|c s IH]; simpl; [lia|].
  destruct (PyStr.digit c); simpl; lia.
Qed.

Lemma match_integer_length (s i r : list ascii) :
  match_integer s = Some (i, r) -> length r < length s.
Proof.
  assert (Hbody : forall t i r,
            match t with
            | c :: t' =>
                if Ascii.eqb c "0" then Some ([c], t')
                else if PyStr.digit c then Some (span_digits t)
                else None
            | [] => None
            end = Some (i, r) -> length r < length t).
  { intros [|c t] i' r' H; [discriminate|].
    destruct (Ascii.eqb c "0").
    - injection H as _ <-. simpl. lia.
    - destruct (PyStr.digit c) eqn:Hd; [|discriminate].
      simpl in H. rewrite Hd in H. injection H as _ <-.
      pose proof (span_digits_length t). simpl. lia. }
  unfold match_integer. destruct s as [|c s]; [discriminate|].
  destruct (Ascii.eqb c "-").
  - intros H.
    destruct (match s with
              | c0 :: t' =>
                  if Ascii.eqb c0 "0" then Some ([c0], t')
                  else if PyStr.digit c0 then Some (span_digits s)
                  else None
              | [] => None
              end) as [[i' r']|] eqn:Hb; [|discriminate].
    injection H as _ <-. apply Hbody in Hb. simpl. lia.
  - intros H. exact (Hbody (c :: s) i r H).
Qed.

Lemma match_frac_length (s : list ascii) : length (snd (match_frac s)) <= length s.
Proof.
  unfold match_frac. destruct s as [|c s]; [simpl; lia|].
  destruct (Ascii.eqb c "."); [|simpl; lia].
  pose proof (span_digits_length s) as H.
  destruct (span_digits s) as [[|d ds] rest]; simpl in *; lia.
Qed.

Lemma match_exp_length (s : list ascii) : length (snd (match_exp s)) <= length s.
Proof.
  unfold match_exp. destruct s as [|c s]; [simpl; lia|].
  destruct (Ascii.eqb c "e" || Ascii.eqb c "E"); [|simpl; lia].
  set (signed := match s with
                 | g :: s'' => if Ascii.eqb g "-" || Ascii.eqb g "+" then ([g], s'') else ([], s)
                 | [] => ([], s)
                 end).
  assert (Hs : length (snd signed) <= length s).
  { unfold signed. destruct s as [|g s'']; [simpl; lia|].
    destruct (Ascii.eqb g "-" || Ascii.eqb g "+"); simpl; lia. }
  pose proof (span_digits_length (snd signed)) as H.
  destruct (span_digits (snd signed)) as [[|d ds] rest]; simpl in *; lia.
Qed.

Lemma keyword_within (s : list ascii) : within (length s) (keyword s).
Proof.
  unfold keyword.
  repeat match goal with
  | |- context [starts_with ?p s] =>
      let H := fresh "H" in
      destruct (starts_with p s) eqn:H;
      [apply starts_with_length in H; simpl in H |- *; lia|]
  end.
  - destruct (match_number s) as [[[[i f] e] r]|] eqn:Hn.
    + unfold match_number in Hn.
      destruct (match_integer s) as [[i' s1]|] eqn:Hi; [|discriminate].
      injection Hn as -> <- <- <-.
      apply match_integer_length in Hi.
      pose proof (match_frac_length s1).
      pose proof (match_exp_length (snd (match_frac s1))).
      unfold number.
      destruct (fst (match_frac s1)), (fst (match_exp (snd (match_frac s1))));
        try (simpl; lia).
      destruct (int_max_str_digits <? _); simpl; [exact I | lia].
    + repeat match goal with
      | |- context [starts_with ?p s] =>
          let H := fresh "H" in
          destruct (starts_with p s) eqn:H;
          [apply starts_with_length in H; simpl in H |- *; lia|]
      end.
      exact I.
Qed.

Lemma scanstring_within (s : list ascii) : within (length s) (scanstring s).
Proof.
  assert (H : forall n s, length s <= n -> within (length s) (scanstring s)).
  { clear s. induction n as [|n IH]; intros s Hn.
    - destruct s; [exact I | simpl in Hn; lia].
    - assert (Hpush : forall c t, length t < length s ->
                within (length s) (push c (scanstring t))).
      { intros c t Ht. specialize (IH t ltac:(lia)). unfold push.
        destruct (scanstring t) as [[cs r]| | | | |]; simpl in *; auto; lia. }
      destruct s as [|c s1]; [exact I|]. cbn [scanstring].
      destruct (Ascii.eqb c quote); [simpl; lia|].
      destruct (Ascii.eqb c "\").
      + destruct s1 as [|e s2]; [exact I|].
        destruct (Ascii.eqb e "u").
        * destruct s2 as [|h1 [|h2 [|h3 [|h4 s3]]]]; try exact I.
          destruct (unhex4 h1 h2 h3 h4) as [k|]; [|exact I].
          destruct (k <? 256)%N; [|exact I]. apply Hpush. simpl. lia.
        * destruct (unescape e); [|exact I]. apply Hpush. simpl. lia.
      + destruct (PyStr.code c <? 32)%N; [exact I|]. apply Hpush. simpl. lia. }
  apply (H (length s)). lia.
Qed.

(** With two units of fuel for every character the decoder does not run
    out, and what it leaves is shorter than what it was given. *)
Lemma scan_within (fuel : nat) :
  (forall depth s, 2 * length s + 1 <= fuel ->
     within (length s) (scan_once fuel depth s))
  /\ (forall depth s, 2 * length s + 2 <= fuel ->
        within (length s) (parse_items fuel depth s))
  /\ (forall depth s, 2 * length s + 2 <= fuel ->
        within (length s) (parse_members fuel depth s)).
Proof.
  induction fuel as [|fuel (IHs & IHi & IHm)].
  - repeat split; intros; lia.
  - repeat split; intros depth s Hf.
    + destruct s as [|c s1]; [exact I|]. cbn [scan_once].
      destruct (Ascii.eqb c quote).
      { pose proof (scanstring_within s1) as H.
        destruct (scanstring s1) as [[cs r]| | | | |]; simpl in *; auto; lia. }
      destruct (Ascii.eqb c "{").
      { destruct depth as [|depth]; [exact I|].
        destruct (skip_ws s1) as [|d s2] eqn:Hw; [exact I|].
        apply skip_ws_cons in Hw.
        destruct (Ascii.eqb d "}"); [simpl; lia|].
        destruct (Ascii.eqb d quote); [|exact I].
        specialize (IHm depth s2 ltac:(simpl in Hf; lia)).
        destruct (parse_members fuel depth s2) as [[ms r]| | | | |]; simpl in *; auto; lia. }
      destruct (Ascii.eqb c "[").
      { destruct depth as [|depth]; [exact I|].
        destruct (skip_ws s1) as [|d s2] eqn:Hw; [exact I|].
        apply skip_ws_cons in Hw.
        destruct (Ascii.eqb d "]"); [simpl; lia|].
        specialize (IHi depth (d :: s2) ltac:(simpl in Hf |- *; lia)).
        destruct (parse_items fuel depth (d :: s2)) as [[xs r]| | | | |];
          simpl in *; auto; lia. }
      apply keyword_within.
    + rewrite parse_items_step.
      specialize (IHs depth s ltac:(lia)).
      destruct (scan_once fuel depth s) as [[v r]| | | | |]; simpl in IHs |- *; auto.
      destruct (skip_ws r) as [|d s2] eqn:Hw; [exact I|].
      apply skip_ws_cons in Hw.
      destruct (Ascii.eqb d "]"); [simpl; lia|].
      destruct (Ascii.eqb d ","); [|exact I].
      pose proof (skip_ws_length s2) as Hl.
      specialize (IHi depth (skip_ws s2) ltac:(lia)).
      destruct (parse_items fuel depth (skip_ws s2)) as [[xs r']| | | | |];
        simpl in *; auto; lia.
    + rewrite parse_members_step.
      pose proof (scanstring_within s) as Hk.
      destruct (scanstring s) as [[k r]| | | | |]; simpl in Hk |- *; auto.
      destruct (skip_ws r) as [|c s1] eqn:Hw; [exact I|].
      apply skip_ws_cons in Hw.
      destruct (Ascii.eqb c ":"); [|exact I].
      pose proof (skip_ws_length s1) as Hl.
      specialize (IHs depth (skip_ws s1) ltac:(lia)).
      destruct (scan_once fuel depth (skip_ws s1)) as [[v r2]| | | | |];
        simpl in IHs |- *; auto.
      destruct (skip_ws r2) as [|d s2] eqn:Hw2; [exact I|].
      apply skip_ws_cons in Hw2.
      destruct (Ascii.eqb d "}"); [simpl; lia|].
      destruct (Ascii.eqb d ","); [|exact I].
      destruct (skip_ws s2) as [|q s3] eqn:Hw3; [exact I|].
      apply skip_ws_cons in Hw3.
      destruct (Ascii.eqb q quote); [|exact I].
      specialize (IHm depth s3 ltac:(lia)).
      destruct (parse_members fuel depth s3) as [[ms r3]| | | | |];
        simpl in *; auto; lia.
Qed.

Lemma loads_has_fuel (text : string) : loads text <> OutOfFuel.
Proof.
  unfold loads, fuel_for.
  pose proof (skip_ws_length (chars text)) as Hl.
  destruct (scan_within (2 * length (chars text) + 1)) as (Hs & _).
  specialize (Hs nesting_bound (skip_ws (chars text)) ltac:(lia)).
  destruct (scan_once _ _ _) as [[v r]| | | | |]; simpl in Hs |- *;
    try discriminate; [|contradiction].
  destruct (skip_ws r); discriminate.
Qed.

Lemma load_has_fuel (bytes : string) : load bytes <> OutOfFuel.
Proof.
  unfold load.
  assert (H : forall l, utf8_decode l <> OutOfFuel).
  { assert (Hn : forall n l, length l <= n -> utf8_decode l <> OutOfFuel).
    { induction n as [|n IH]; intros l Hl.
      - destruct l; [discriminate | simpl in Hl; lia].
      - assert (Hk : forall c t, length t < length l -> keep c (utf8_decode t) <> OutOfFuel).
        { intros c t Ht. specialize (IH t ltac:(lia)). unfold keep.
          destruct (utf8_decode t); simpl; congruence. }
        assert (Hw : forall t, wide (utf8_decode t) <> OutOfFuel).
        { intros t. unfold wide. destruct (utf8_decode t); discriminate. }
        destruct l as [|b s1]; [discriminate|]. cbn [utf8_decode].
        destruct (PyStr.code b <? 128)%N; [apply Hk; simpl; lia|].
        destruct (PyStr.in_range 194 223 b).
        { destruct s1 as [|c1 s2]; [discriminate|].
          destruct (continuation c1); [|discriminate].
          destruct (_ <? 256)%N; [apply Hk; simpl; lia | apply Hw]. }
        destruct (PyStr.in_range 224 239 b).
        { destruct s1 as [|c1 [|c2 s3]]; try discriminate.
          destruct (second b c1 && continuation c2); [apply Hw | discriminate]. }
        destruct (PyStr.in_range 240 244 b); [|discriminate].
        destruct s1 as [|c1 [|c2 [|c3 s4]]]; try discriminate.
        destruct (second b c1 && continuation c2 && continuation c3);
          [apply Hw | discriminate]. }
    intros l. apply (Hn (length l)). lia. }
  destruct (utf8_decode (chars bytes)) eqn:E; simpl; try discriminate.
  - apply loads_has_fuel.
  - now apply H in E.
Qed.

Arguments newline_indent : simpl never.
Arguments join : simpl never.
Arguments encode : simpl never.
Arguments scan_once : simpl never.
Arguments parse_items : simpl never.
Arguments parse_members : simpl never.
Arguments skip_ws : simpl never.
Arguments scanstring : simpl never.

Lemma eqb_comma_bracket : Ascii.eqb "," "]" = false.
Proof. reflexivity. Qed.

Ltac step := cbn [bind fst snd Ascii.eqb Bool.eqb].

(** Decoding the text of the elements of an array, up to the closing
    bracket, given that each element decodes. *)
Lemma parse_items_encoded (level depth : nat) (xs : list value) :
  forall x fuel rest,
  Forall (fun v => plain v = true /\ forall fuel rest, weight v <= fuel ->
            scan_once fuel depth (encode (S level) v ++ rest) = Ok (v, rest)) (x :: xs) ->
  list_sum (map (fun v => S (weight v)) (x :: xs)) <= fuel ->
  parse_items fuel depth
    (join (separator (S level)) (map (encode (S level)) (x :: xs))
     ++ newline_indent level ++ "]"%char :: rest)
  = Ok (x :: xs, rest).
Proof.
  induction xs as [|y ys IH]; intros x fuel rest HF Hfuel.
  - apply Forall_cons_1 in HF as [[Hp Hx] _].
    simpl in Hfuel. destruct fuel as [|fuel]; [lia|].
    rewrite parse_items_step. cbn [map]. rewrite join_one.
    rewrite Hx by lia. step.
    rewrite skip_ws_indent, skip_ws_stop by reflexivity. reflexivity.
  - apply Forall_cons_1 in HF as [[Hp Hx] HF'].
    simpl in Hfuel. destruct fuel as [|fuel]; [lia|].
    rewrite parse_items_step. cbn [map]. rewrite join_more.
    rewrite <- !app_assoc. rewrite Hx by lia. step.
    unfold separator at 1. rewrite <- app_comm_cons.
    rewrite skip_ws_stop by reflexivity. step.
    rewrite skip_ws_indent.
    assert (Hy : plain y = true) by (apply Forall_cons_1 in HF' as [[Hy _] _]; exact Hy).
    destruct (encode_head (S level) y Hy) as (c & t & Hc & Hws & _).
    assert (Hskip : forall tail,
              skip_ws (join (separator (S level)) (map (encode (S level)) (y :: ys)) ++ tail)
              = join (separator (S level)) (map (encode (S level)) (y :: ys)) ++ tail).
    { intros tail. destruct ys as [|z zs]; cbn [map].
      - rewrite join_one, Hc. rewrite <- app_comm_cons. now apply skip_ws_stop.
      - rewrite join_more, Hc. rewrite <- app_comm_cons. now apply skip_ws_stop. }
    rewrite Hskip.
    rewrite (IH y fuel rest HF') by (simpl; lia). reflexivity.
Qed.

Lemma encode_member_tail (level : nat) (kv : string * value) :
  encode_member level kv = quote :: member_tail level kv.
Proof.
  unfold encode_member, member_tail, encode_string.
  rewrite <- app_comm_cons, <- app_assoc. reflexivity.
Qed.

Lemma chars_back (s : string) : string_of_list_ascii (chars s) = s.
Proof. apply string_of_list_ascii_of_string. Qed.

Lemma parse_members_encoded (level depth : nat) (ms : list (string * value)) :
  forall kv fuel rest,
  Forall (fun m => plain (snd m) = true /\ forall fuel rest, weight (snd m) <= fuel ->
            scan_once fuel depth (encode (S level) (snd m) ++ rest) = Ok (snd m, rest))
         (kv :: ms) ->
  list_sum (map (fun m => S (weight (snd m))) (kv :: ms)) <= fuel ->
  parse_members fuel depth
    (member_tail (S level) kv
     ++ match ms with
        | [] => newline_indent level ++ "}"%char :: rest
        | _ :: _ =>
            separator (S level)
            ++ join (separator (S level)) (map (encode_member (S level)) ms)
            ++ newline_indent level ++ "}"%char :: rest
        end)
  = Ok (kv :: ms, rest).
Proof.
  induction ms as [|kv' ms' IH]; intros [k v] fuel rest HF Hfuel.
  - apply Forall_cons_1 in HF as [[Hp Hv] _]. cbn [snd] in Hp, Hv.
    simpl in Hfuel. destruct fuel as [|fuel]; [lia|].
    rewrite parse_members_step. unfold member_tail. cbn [fst snd].
    rewrite <- !app_assoc, <- !app_comm_cons, <- !app_assoc.
    rewrite scanstring_encoded. step.
    change (chars ": " ++ ?t) with (":"%char :: " "%char :: t).
    rewrite skip_ws_stop by reflexivity. step.
    change (skip_ws (" "%char :: ?t)) with (skip_ws t).
    rewrite skip_ws_encode by exact Hp.
    rewrite Hv by lia. step.
    rewrite skip_ws_indent, skip_ws_stop by reflexivity. step.
    now rewrite chars_back.
  - apply Forall_cons_1 in HF as [[Hp Hv] HF']. cbn [snd] in Hp, Hv.
    simpl in Hfuel. destruct fuel as [|fuel]; [lia|].
    rewrite parse_members_step. unfold member_tail at 1. cbn [fst snd].
    rewrite <- !app_assoc, <- !app_comm_cons, <- !app_assoc.
    rewrite scanstring_encoded. step.
    change (chars ": " ++ ?t) with (":"%char :: " "%char :: t).
    rewrite skip_ws_stop by reflexivity. step.
    change (skip_ws (" "%char :: ?t)) with (skip_ws t).
    rewrite skip_ws_encode by exact Hp.
    rewrite Hv by lia. step.
    unfold separator at 1. rewrite <- app_comm_cons.
    rewrite skip_ws_stop by reflexivity. step.
    rewrite skip_ws_indent.
    assert (Hjoin : join (separator (S level)) (map (encode_member (S level)) (kv' :: ms'))
                    ++ newline_indent level ++ "}"%char :: rest
                    = quote :: member_tail (S level) kv'
                      ++ match ms' with
                         | [] => newline_indent level ++ "}"%char :: rest
                         | _ :: _ =>
                             separator (S level)
                             ++ join (separator (S level))
                                  (map (encode_member (S level)) ms')
                             ++ newline_indent level ++ "}"%char :: rest
                         end).
    { destruct ms' as [|kv'' ms'']; cbn [map].
      - rewrite join_one, encode_member_tail. reflexivity.
      - rewrite join_more, encode_member_tail.
        rewrite <- !app_assoc, <- !app_comm_cons. reflexivity. }
    rewrite Hjoin.
    rewrite skip_ws_stop by reflexivity. step.
    rewrite (IH kv' fuel rest HF') by (simpl; simpl in Hfuel; lia). step.
    now rewrite chars_back.
Qed.

Lemma list_max_elem (n : nat) (l : list nat) : In n l -> n <= list_max l.
Proof.
  intros Hin. pose proof (proj1 (list_max_le l (list_max l)) (Nat.le_refl _)) as H.
  rewrite List.Forall_forall in H. now apply H.
Qed.

(** Decoding the text of a value gives the value back and stops right
    after it, when the fuel and the depth allow for the value. *)
Lemma scan_once_encoded (v : value) :
  plain v = true ->
  forall level fuel depth rest, weight v <= fuel -> height v <= depth ->
  scan_once fuel depth (encode level v ++ rest) = Ok (v, rest).
Proof.
  induction v as [| b | n | s | items IH | members IH] using value_induction;
    intros Hp level fuel depth rest Hfuel Hdepth.
  - destruct fuel as [|fuel]; [simpl in Hfuel; lia | reflexivity].
  - destruct fuel as [|fuel]; [simpl in Hfuel; lia | destruct b; reflexivity].
  - discriminate.
  - destruct fuel as [|fuel]; [simpl in Hfuel; lia|].
    change (encode level (Str s)) with (quote :: flat_map escape (chars s) ++ [quote]).
    rewrite <- app_comm_cons, <- app_assoc.
    change (scan_once (S fuel) depth (quote :: ?t))
      with (bind (scanstring t) (fun p => Ok (Str (string_of_list_ascii (fst p)), snd p))).
    change ([quote] ++ rest) with (quote :: rest).
    rewrite scanstring_encoded. step. now rewrite chars_back.
  - destruct fuel as [|fuel]; [simpl in Hfuel; lia|].
    destruct depth as [|depth]; [simpl in Hdepth; lia|].
    destruct items as [|x xs]; [reflexivity|].
    rewrite encode_array, <- app_comm_cons, scan_once_array.
    rewrite <- !app_assoc, skip_ws_indent.
    assert (HF : Forall (fun v => plain v = true /\ forall fuel rest, weight v <= fuel ->
                  scan_once fuel depth (encode (S level) v ++ rest) = Ok (v, rest))
                  (x :: xs)).
    { cbn [plain] in Hp. rewrite forallb_forall in Hp.
      rewrite Forall_forall in IH. apply Forall_forall. intros y Hy.
      assert (Hpy : plain y = true) by (apply Hp; now apply list_elem_of_In).
      split; [exact Hpy|]. intros f r Hf. apply IH; [exact Hy | exact Hpy | exact Hf |].
      cbn [height] in Hdepth.
      assert (height y <= list_max (map height (x :: xs))); [|lia].
      apply list_max_elem, in_map. now apply list_elem_of_In. }
    assert (Hx : plain x = true) by (apply Forall_cons_1 in HF as [[Hx _] _]; exact Hx).
    destruct (encode_head (S level) x Hx) as (c & t & Hc & Hws & Hb & _).
    assert (Hstart : exists t', join (separator (S level)) (map (encode (S level)) (x :: xs))
                                = c :: t').
    { destruct xs as [|y ys]; cbn [map].
      - rewrite join_one, Hc. eauto.
      - rewrite join_more, Hc. rewrite <- app_comm_cons. eauto. }
    destruct Hstart as (t' & Hstart).
    pose proof (parse_items_encoded level depth xs x fuel rest HF) as Hitems.
    rewrite Hstart in Hitems |- *. rewrite <- !app_comm_cons in Hitems |- *.
    rewrite skip_ws_stop by exact Hws. rewrite Hb.
    change ([ "]"%char ] ++ rest) with ("]"%char :: rest).
    rewrite Hitems by (simpl in Hfuel |- *; lia). reflexivity.
  - destruct fuel as [|fuel]; [simpl in Hfuel; lia|].
    destruct depth as [|depth]; [simpl in Hdepth; lia|].
    destruct members as [|kv ms]; [reflexivity|].
    rewrite encode_object, <- app_comm_cons, scan_once_object.
    rewrite <- !app_assoc, skip_ws_indent.
    assert (HF : Forall (fun m => plain (snd m) = true /\ forall fuel rest,
                  weight (snd m) <= fuel ->
                  scan_once fuel depth (encode (S level) (snd m) ++ rest)
                  = Ok (snd m, rest))
                  (kv :: ms)).
    { cbn [plain] in Hp. rewrite forallb_forall in Hp.
      rewrite Forall_forall in IH. apply Forall_forall. intros m Hm.
      assert (Hpm : plain (snd m) = true) by (apply Hp; now apply list_elem_of_In).
      split; [exact Hpm|]. intros f r Hf. apply IH; [exact Hm | exact Hpm | exact Hf |].
      cbn [height] in Hdepth.
      assert (height (snd m)
              <= list_max (map (fun kv => height (snd kv)) (kv :: ms))); [|lia].
      apply list_max_elem.
      apply (in_map (fun kv => height (snd kv))). now apply list_elem_of_In. }
    pose proof (parse_members_encoded level depth ms kv fuel rest HF) as Hmembers.
    change ([ "}"%char ] ++ rest) with ("}"%char :: rest).
    assert (Hjoin : join (separator (S level)) (map (encode_member (S level)) (kv :: ms))
                    ++ newline_indent level ++ "}"%char :: rest
                    = quote :: member_tail (S level) kv
                      ++ match ms with
                         | [] => newline_indent level ++ "}"%char :: rest
                         | _ :: _ =>
                             separator (S level)
                             ++ join (separator (S level))
                                  (map (encode_member (S level)) ms)
                             ++ newline_indent level ++ "}"%char :: rest
                         end).
    { destruct ms as [|kv' ms']; cbn [map].
      - rewrite join_one, encode_member_tail. reflexivity.
      - rewrite join_more, encode_member_tail.
        rewrite <- !app_assoc, <- !app_comm_cons. reflexivity. }
    rewrite Hjoin.
    rewrite skip_ws_stop by reflexivity.
    change (Ascii.eqb quote "}") with false. change (Ascii.eqb quote quote) with true.
    cbv iota.
    rewrite Hmembers by (simpl in Hfuel |- *; lia). reflexivity.
Qed.

Lemma join_weight {A} (f : A -> list ascii) (g : A -> nat) (sep : list ascii)
    (xs : list A) :
  1 <= length sep ->
  Forall (fun x => g x <= length (f x)) xs ->
  list_sum (map (fun x => S (g x)) xs) <= S (length (join sep (map f xs))).
Proof.
  intros Hsep. induction xs as [|x [|y ys] IH]; intros HF.
  - simpl. lia.
  - apply Forall_cons_1 in HF as [Hx _]. cbn [map]. rewrite join_one. simpl. lia.
  - apply Forall_cons_1 in HF as [Hx HF']. specialize (IH HF').
    cbn [map] in IH |- *. rewrite join_more, !length_app.
    simpl in IH |- *. lia.
Qed.

Lemma length_newline_indent (level : nat) : 1 <= length (newline_indent level).
Proof. unfold newline_indent. simpl. lia. Qed.

Lemma weight_le_length (v : value) :
  plain v = true -> forall level, weight v <= length (encode level v).
Proof.
  induction v as [| b | n | s | items IH | members IH] using value_induction;
    intros Hp level.
  - simpl. lia.
  - destruct b; simpl; lia.
  - discriminate.
  - change (encode level (Str s)) with (quote :: flat_map escape (chars s) ++ [quote]).
    simpl. lia.
  - destruct items as [|x xs]; [simpl; lia|].
    rewrite encode_array. cbn [weight length]. rewrite !length_app.
    pose proof (length_newline_indent level).
    pose proof (length_newline_indent (S level)).
    assert (Hj : list_sum (map (fun v => S (weight v)) (x :: xs))
                 <= S (length (join (separator (S level))
                                 (map (encode (S level)) (x :: xs))))).
    { apply join_weight; [simpl; lia|].
      cbn [plain] in Hp. rewrite forallb_forall in Hp.
      rewrite Forall_forall in IH. apply Forall_forall. intros y Hy.
      apply IH; [exact Hy|]. apply Hp. now apply list_elem_of_In. }
    lia.
  - destruct members as [|kv ms]; [simpl; lia|].
    rewrite encode_object. cbn [weight length]. rewrite !length_app.
    pose proof (length_newline_indent level).
    pose proof (length_newline_indent (S level)).
    assert (Hj : list_sum (map (fun m => S (weight (snd m))) (kv :: ms))
                 <= S (length (join (separator (S level))
                                 (map (encode_member (S level)) (kv :: ms))))).
    { apply (join_weight (encode_member (S level)) (fun m => weight (snd m)));
        [simpl; lia|].
      cbn [plain] in Hp. rewrite forallb_forall in Hp.
      rewrite Forall_forall in IH. apply Forall_forall. intros m Hm.
      unfold encode_member. rewrite !length_app.
      assert (weight (snd m) <= length (encode (S level) (snd m))); [|lia].
      apply IH; [exact Hm|]. apply Hp. now apply list_elem_of_In. }
    lia.
Qed.

(** Reading back what was written: for every value without number
    literals and nested no deeper than [nesting_bound], [loads (dumps v)]
    is [v]. *)
Lemma loads_dumps (v : value) :
  plain v = true -> height v <= nesting_bound -> loads (dumps v) = Ok v.
Proof.
  intros Hp Hh. unfold loads, dumps, chars, fuel_for.
  rewrite list_ascii_of_string_of_list_ascii.
  rewrite <- (app_nil_r (encode 0 v)) at 2.
  rewrite skip_ws_encode by exact Hp.
  rewrite scan_once_encoded; [reflexivity | exact Hp | | exact Hh].
  pose proof (weight_le_length v Hp 0). lia.
Qed.

Lemma plain_of_account (a : Account) : plain (of_account a) = true.
Proof.
  unfold of_account. cbn [plain forallb snd]. rewrite andb_true_r.
  induction (my_list a) as [|x l IH]; [reflexivity | exact IH].
Qed.

Lemma plain_of_accounts (m : gmap string Account) : plain (of_accounts m) = true.
Proof.
  unfold of_accounts. cbn [plain]. apply forallb_forall.
  intros kv Hin. apply in_map_iff in Hin as (kv' & <- & _). apply plain_of_account.
Qed.

Lemma dict_from (ms : list (string * value)) (acc : gmap string value) :
  NoDup (map fst ms) ->
  fold_left (fun d kv => <[fst kv := snd kv]> d) ms acc = list_to_map ms ∪ acc.
Proof.
  revert acc. induction ms as [|[k v] ms IH]; intros acc Hnd.
  - simpl. now rewrite (left_id_L ∅ (∪)).
  - apply NoDup_cons in Hnd as [Hk Hnd]. simpl.
    rewrite IH by exact Hnd.
    rewrite <- insert_union_l. symmetry. apply insert_union_r.
    apply not_elem_of_list_to_map_1. exact Hk.
Qed.

Lemma dict_list_to_map (ms : list (string * value)) :
  NoDup (map fst ms) -> dict ms = list_to_map ms.
Proof.
  intros Hnd. unfold dict. rewrite dict_from by exact Hnd.
  now rewrite (right_id_L ∅ (∪)).
Qed.

Lemma dict_of_accounts (m : gmap string Account) :
  dict (map (fun kv => (fst kv, of_account (snd kv))) (map_to_list m))
  = of_account <$> m.
Proof.
  rewrite dict_list_to_map.
  - change (map (fun kv : string * Account => (fst kv, of_account (snd kv)))
               (map_to_list m))
      with (prod_map (@id string) of_account <$> map_to_list m).
    rewrite list_to_map_fmap. now rewrite list_to_map_to_list.
  - rewrite map_map. simpl. apply NoDup_fst_map_to_list.
Qed.

Lemma mapM_as_str (l : list string) : mapM as_str (map Str l) = Some l.
Proof. induction l as [|x l IH]; simpl; [reflexivity | now rewrite IH]. Qed.

Lemma to_account_of_account (a : Account) : to_account (of_account a) = Some a.
Proof.
  unfold to_account, of_account, dict. cbn [fold_left fst snd].
  rewrite decide_True.
  - set (inner := <["password_hash" := Str (password_hash a)]> (∅ : gmap string value)).
    assert (H1 : <["my_list" := Array (map Str (my_list a))]> inner !! "password_hash"
                 = Some (Str (password_hash a))).
    { rewrite lookup_insert_ne; [apply lookup_insert_eq | intros H; discriminate H]. }
    rewrite H1, lookup_insert_eq. simpl. rewrite mapM_as_str. simpl. now destruct a.
  - rewrite !dom_insert_L, dom_empty_L. set_solver.
Qed.

(** The dictionary read back from its own document. *)
Lemma to_accounts_of_accounts (m : gmap string Account) :
  to_accounts (of_accounts m) = Some m.
Proof.
  unfold to_accounts, of_accounts. rewrite dict_of_accounts.
  assert (Hm : omap to_account (of_account <$> m) = m).
  { apply map_eq. intros k. rewrite lookup_omap, lookup_fmap.
    destruct (m !! k) as [a|]; simpl; [apply to_account_of_account | reflexivity]. }
  rewrite Hm. rewrite decide_True; [reflexivity|]. now rewrite dom_fmap_L.
Qed.

(** ** The bytes of a written document *)

Lemma escape_seven (c : ascii) : Forall seven (escape c).
Proof.
  destruct c as [[] [] [] [] [] [] [] []]; vm_compute; repeat constructor.
Qed.

Lemma flat_map_seven (cs : list ascii) : Forall seven (flat_map escape cs).
Proof.
  induction cs as [|c cs IH]; simpl; [constructor|].
  apply Forall_app. split; [apply escape_seven | exact IH].
Qed.

Lemma encode_string_seven (s : string) : Forall seven (encode_string s).
Proof.
  unfold encode_string. constructor; [reflexivity|].
  apply Forall_app. split; [apply flat_map_seven | repeat constructor].
Qed.

Lemma newline_indent_seven (level : nat) : Forall seven (newline_indent level).
Proof.
  unfold newline_indent. constructor; [reflexivity|].
  induction (4 * level) as [|n IH]; simpl; constructor; [reflexivity | exact IH].
Qed.

Lemma join_seven (sep : list ascii) (parts : list (list ascii)) :
  Forall seven sep -> Forall (Forall seven) parts -> Forall seven (join sep parts).
Proof.
  intros Hsep. induction parts as [|p [|q ps] IH]; intros HF.
  - constructor.
  - rewrite join_one. now apply Forall_cons_1 in HF as [Hp _].
  - apply Forall_cons_1 in HF as [Hp HF']. rewrite join_more.
    apply Forall_app. split; [exact Hp|]. apply Forall_app. split; [exact Hsep|].
    apply IH, HF'.
Qed.

Lemma encode_seven (v : value) :
  plain v = true -> forall level, Forall seven (encode level v).
Proof.
  induction v as [| b | n | s | items IH | members IH] using value_induction;
    intros Hp level.
  - repeat constructor.
  - destruct b; repeat constructor.
  - discriminate.
  - apply encode_string_seven.
  - destruct items as [|x xs]; [repeat constructor|].
    rewrite encode_array. constructor; [reflexivity|].
    apply Forall_app. split; [apply newline_indent_seven|].
    apply Forall_app. split; [|apply Forall_app; split;
                                 [apply newline_indent_seven | repeat constructor]].
    apply join_seven.
    + constructor; [reflexivity | apply newline_indent_seven].
    + cbn [plain] in Hp. rewrite forallb_forall in Hp.
      rewrite Forall_forall in IH. apply Forall_forall. intros t Ht.
      apply list_elem_of_In, in_map_iff in Ht as (y & <- & Hy).
      apply IH; [now apply list_elem_of_In | now apply Hp].
  - destruct members as [|kv ms]; [repeat constructor|].
    rewrite encode_object. constructor; [reflexivity|].
    apply Forall_app. split; [apply newline_indent_seven|].
    apply Forall_app. split; [|apply Forall_app; split;
                                 [apply newline_indent_seven | repeat constructor]].
    apply join_seven.
    + constructor; [reflexivity | apply newline_indent_seven].
    + cbn [plain] in Hp. rewrite forallb_forall in Hp.
      rewrite Forall_forall in IH. apply Forall_forall. intros t Ht.
      apply list_elem_of_In, in_map_iff in Ht as (m & <- & Hm).
      unfold encode_member. apply Forall_app. split; [apply encode_string_seven|].
      apply Forall_app. split; [repeat constructor|].
      apply IH; [now apply list_elem_of_In | now apply Hp].
Qed.

Lemma utf8_decode_seven (l : list ascii) : Forall seven l -> utf8_decode l = Ok l.
Proof.
  induction 1 as [|c l Hc _ IH]; [reflexivity|].
  cbn [utf8_decode]. unfold seven in Hc. rewrite Hc, IH. reflexivity.
Qed.

Lemma load_dumps (v : value) :
  plain v = true -> height v <= nesting_bound -> load (dumps v) = Ok v.
Proof.
  intros Hp Hh. unfold load.
  replace (utf8_decode (chars (dumps v))) with (@Ok (list ascii) (chars (dumps v))).
  - cbn [bind]. rewrite chars_back. now apply loads_dumps.
  - symmetry. apply utf8_decode_seven. unfold dumps, chars.
    rewrite list_ascii_of_string_of_list_ascii. now apply encode_seven.
Qed.

Lemma list_max_zero (l : list nat) : Forall (fun n => n = 0) l -> list_max l = 0.
Proof. induction 1 as [|n l -> _ IH]; [reflexivity | simpl; now rewrite IH]. Qed.

Lemma height_of_account (a : Account) : height (of_account a) = 2.
Proof.
  unfold of_account. cbn [height map snd].
  rewrite (list_max_zero (map height (map Str (my_list a)))); [reflexivity|].
  apply Forall_forall. intros n Hn.
  apply list_elem_of_In, in_map_iff in Hn as (y & <- & Hy).
  apply in_map_iff in Hy as (t & <- & _). reflexivity.
Qed.

Lemma height_of_accounts (m : gmap string Account) :
  height (of_accounts m) <= nesting_bound.
Proof.
  unfold of_accounts. cbn [height].
  assert (H : list_max (map (fun kv => height (snd kv))
                (map (fun kv => (fst kv, of_account (snd kv))) (map_to_list m))) <= 2).
  { apply list_max_le. apply List.Forall_forall. intros n Hn.
    apply in_map_iff in Hn as (y & <- & Hy).
    apply in_map_iff in Hy as (t & <- & _). cbn [snd]. now rewrite height_of_account. }
  unfold nesting_bound. lia.
Qed.

End JsonFacts.

(* ===================================================================== *)
(** * Persistence, the first run and whole runs                           *)
(* ===================================================================== *)

Arguments Json.to_accounts : simpl never.

Lemma load_saved (a : gmap string Account) :
  Json.load (Json.dumps (Json.of_accounts a)) = Json.Ok (Json.of_accounts a).
Proof.
  apply JsonFacts.load_dumps;
    [apply JsonFacts.plain_of_accounts | apply JsonFacts.height_of_accounts].
Qed.

Lemma stored_saved (a : gmap string Account) :
  stored (Some (Json.dumps (Json.of_accounts a))) = Some a.
Proof. unfold stored. rewrite load_saved. apply JsonFacts.to_accounts_of_accounts. Qed.

Lemma to_accounts_empty : Json.to_accounts (Json.Object []) = Some ∅.
Proof.
  pose proof (JsonFacts.to_accounts_of_accounts ∅) as H.
  unfold Json.of_accounts in H. now rewrite map_to_list_empty in H.
Qed.

(** The first run of a session: the dictionary comes from the file, the
    page is "home" and nobody is logged in, so the run shows the home
    page. *)
Lemma main_app_first_run (w : Widgets) (x : World) (a : gmap string Account) :
  session_state x = fresh ->
  stored (accounts_file x) = Some a ->
  exists ctl p ns,
    main_app w x = (ctl, mkWorld (mkSession (Some a) (Some p) None) (accounts_file x)
                           (shown x ++ ns))
    /\ (ctl = Value tt \/ ctl = Raise RerunException)
    /\ (ns = [] \/ ns = [corrupted]).
Proof.
  intros Hs Hst. destruct x as [s file out]. simpl in Hs, Hst. subst s.
  unfold main_app, load_accounts, fresh. run_script.
  unfold stored in Hst.
  destruct file as [text|].
  - destruct (Json.load text) as [doc| | | | |] eqn:El; try discriminate.
    + simpl. rewrite Hst. simpl.
      destruct (home_register w); simpl.
      * exists (Raise RerunException), "register", []. rewrite app_nil_r. auto.
      * destruct (home_login w); simpl.
        -- exists (Raise RerunException), "login", []. rewrite app_nil_r. auto.
        -- exists (Value tt), "home", []. rewrite app_nil_r. auto.
    + injection Hst as <-. simpl. rewrite to_accounts_empty. simpl.
      destruct (home_register w); simpl.
      * exists (Raise RerunException), "register", [corrupted]. auto.
      * destruct (home_login w); simpl.
        -- exists (Raise RerunException), "login", [corrupted]. auto.
        -- exists (Value tt), "home", [corrupted]. auto.
  - injection Hst as <-. simpl. rewrite to_accounts_empty. simpl.
    destruct (home_register w); simpl.
    * exists (Raise RerunException), "register", []. rewrite app_nil_r. auto.
    * destruct (home_login w); simpl.
      -- exists (Raise RerunException), "login", []. rewrite app_nil_r. auto.
      -- exists (Value tt), "home", []. rewrite app_nil_r. auto.
Qed.

(** [C6] What [save_accounts] writes, [load_accounts] reads back: for every
    dictionary [a], loading the file just saved returns the document of
    [a] without a warning, that document is [a] again, and a new session
    started on that file holds [a]. *)
Theorem persistence_round_trip (a : gmap string Account) (x : World) (w : Widgets) :
  let saved := after (save_accounts a) x in
  load_accounts saved = (Value (Json.of_accounts a), saved)
  /\ Json.to_accounts (Json.of_accounts a) = Some a
  /\ accounts (session_state
       (after (main_app w) (mkWorld fresh (accounts_file saved) []))) = Some a.
Proof.
  intros saved. split; [|split].
  - unfold saved, after, save_accounts, load_accounts. run_script.
    rewrite load_saved. reflexivity.
  - apply JsonFacts.to_accounts_of_accounts.
  - destruct (main_app_first_run w (mkWorld fresh (accounts_file saved) []) a eq_refl)
      as (ctl & p & ns & Hrun & _).
    + apply stored_saved.
    + unfold after. rewrite Hrun. reflexivity.
Qed.



(** [C7] Not every file that is no JSON document is recovered from.  On
    a file that holds the byte 0xFF reading raises [UnicodeDecodeError],
    and on a file that starts a list with an integer of 4301 digits
    [json.load] raises [ValueError]; [load_accounts] catches neither, so
    it shows no warning and returns no dictionary, and the first run of
    the session ends by the exception with the session left without
    accounts. *)
Theorem load_accounts_does_not_recover :
  Json.load stray_byte = Json.UnicodeDecodeError
  /\ load_accounts (starting_on stray_byte) = (Raise UnicodeDecodeError, starting_on stray_byte)
  /\ main_app idle (starting_on stray_byte)
     = (Raise UnicodeDecodeError, starting_on stray_byte)
  /\ Json.load long_integer = Json.ValueError
  /\ load_accounts (starting_on long_integer) = (Raise ValueError, starting_on long_integer)
  /\ main_app idle (starting_on long_integer) = (Raise ValueError, starting_on long_integer).
Proof. repeat split; vm_compute; reflexivity. Qed.

Arguments register_account_page : simpl never.
Arguments login_account_page : simpl never.
Arguments manage_user_list_page : simpl never.
Arguments below_the_list : simpl never.

(** ** What one run can do to the dictionary, the file and the login *)

Lemma effect_core (x y x' y' : World) :
  core x = core y -> core x' = core y' -> effect x x' -> effect y y'.
Proof.
  unfold core. intros Hx Hx' He.
  injection Hx as Ha Hu Hf. injection Hx' as Ha' Hu' Hf'.
  destruct He as [a H1 H2 H3 H4 | a u h H1 H2 H3 H4 H5 H6 | a u d l H1 H2 H3 H4 H5 H6 H7].
  - apply (effect_keep y y' a); congruence || idtac.
    rewrite <- Hu', <- Hu. exact H4.
  - apply (effect_register y y' a u h); congruence.
  - apply (effect_list y y' a u d l); congruence.
Qed.

Lemma effect_refl (x : World) (a : gmap string Account) :
  accounts (session_state x) = Some a -> effect x x.
Proof. intros Ha. apply (effect_keep x x a); auto. Qed.

Lemma register_effect (w : Widgets) (x : World) (a : gmap string Account) :
  accounts (session_state x) = Some a ->
  effect x (after (register_account_page w) x).
Proof.
  intros Ha. destruct (register_submitted w) eqn:Hs.
  - destruct (register_cases w x a Ha Hs) as [(r & _ & _ & Hrun) | (Hall & Hrun)];
      unfold after; rewrite Hrun.
    + apply (effect_keep _ _ a); auto.
    + apply (effect_register _ _ a (PyStr.strip (register_username w))
               (hash_password (PyStr.strip (register_password w)))); auto.
      * exact (Hall UsernameIsNew).
      * exact (Hall UsernameNotEmpty).
  - unfold after, register_account_page. rewrite Hs. exact (effect_refl x a Ha).
Qed.

Lemma login_effect (w : Widgets) (x : World) (a : gmap string Account) :
  accounts (session_state x) = Some a ->
  effect x (after (login_account_page w) x).
Proof.
  intros Ha. destruct (login_submitted w) eqn:Hs.
  - destruct (login_cases w x a Ha Hs) as (Hyes & Hno & [Hm | Hn]); unfold after.
    + rewrite (Hyes Hm). destruct Hm as (d & Hd & _).
      apply (effect_keep _ _ a); auto. right. right. eauto.
    + rewrite (Hno Hn). apply (effect_keep _ _ a); auto.
  - unfold after, login_account_page. rewrite Hs. exact (effect_refl x a Ha).
Qed.

Ltac keep a := apply (effect_keep _ _ a); simpl; auto.

Lemma below_effect' (w : Widgets) (x : World) (a : gmap string Account) (u : string)
    (d : Account) :
  logged_in_user (session_state x) = Some u ->
  accounts (session_state x) = Some a ->
  a !! u = Some d ->
  effect x (after (below_the_list w (Some u) d) x).
Proof.
  intros Hu Ha Hd.
  destruct x as [[acc pg usr] file out]. simpl in Hu, Ha. subst acc usr.
  unfold after, below_the_list.
  set (new_item := PyStr.strip (add_new_item_input w)).
  assert (Hclear : effect (mkWorld (mkSession (Some a) pg (Some u)) file out)
            (mkWorld (mkSession (Some (<[u := set_my_list [] d]> a)) pg (Some u))
               (saved_as (<[u := set_my_list [] d]> a))
               (out ++ [(Success, "Your list has been cleared!")]))).
  { apply (effect_list _ _ a u d []); auto. right. right. reflexivity. }
  destruct (add_item_button w); [destruct (bool_decide (new_item = "")) eqn:En;
    [|destruct (PyStr.contains new_item (my_list d)) eqn:Ec]|].
  - destruct (clear_list_button w), (my_list d) eqn:El, (logout_button w);
      crunch Hd; try (keep a; fail);
      (eapply effect_core; [reflexivity | | exact Hclear]; reflexivity).
  - destruct (clear_list_button w), (my_list d) eqn:El, (logout_button w);
      crunch Hd; try (keep a; fail);
      (eapply effect_core; [reflexivity | | exact Hclear]; reflexivity).
  - crunch Hd. apply (effect_list _ _ a u d (my_list d ++ [new_item])); auto.
    right. left. exists new_item. split; [|split; [|reflexivity]].
    + now apply bool_decide_eq_false in En.
    + now apply PyStrFacts.contains_false.
  - destruct (clear_list_button w), (my_list d) eqn:El, (logout_button w);
      crunch Hd; try (keep a; fail);
      (eapply effect_core; [reflexivity | | exact Hclear]; reflexivity).
Qed.

Lemma manage_effect' (w : Widgets) (x : World) (a : gmap string Account) :
  accounts (session_state x) = Some a ->
  effect x (after (manage_user_list_page w) x).
Proof.
  intros Ha.
  destruct (logged_in_user (session_state x)) as [u|] eqn:Hu.
  - destruct (a !! u) as [d|] eqn:Hd.
    + destruct (first_ticked w 0 (my_list d)) as [y|] eqn:Et.
      * pose proof (first_ticked_elem w 0 _ y Et) as Hin.
        destruct (PyStrFacts.remove_first y (my_list d) Hin) as (l1 & l2 & _ & _ & Hr).
        unfold after. rewrite (manage_tick w x a u d y (l1 ++ l2) Hu Ha Hd Et Hr).
        apply (effect_list _ _ a u d (l1 ++ l2)); auto. left. eauto.
      * unfold after. rewrite (manage_quiet w x a u d Hu Ha Hd Et).
        eapply effect_core;
          [| reflexivity
           | apply (below_effect' w (notes x (listing (my_list d))) a u d);
             [exact Hu | exact Ha | exact Hd]].
        reflexivity.
    + destruct x as [[acc pg usr] file out]. simpl in Hu, Ha. subst acc usr.
      unfold after, manage_user_list_page. run_script. rewrite Hd. simpl. keep a.
  - destruct x as [[acc pg usr] file out]. simpl in Hu, Ha. subst acc usr.
    unfold after, manage_user_list_page. run_script. keep a.
Qed.

(** A run on a session that has its dictionary. *)
Lemma main_app_effect (w : Widgets) (x : World) (a : gmap string Account) :
  accounts (session_state x) = Some a ->
  effect x (after (main_app w) x).
Proof.
  intros Ha.
  destruct x as [[acc pg usr] file out]. simpl in Ha. subst acc.
  unfold after, main_app. run_script.
  set (p := match pg with Some p => p | None => "home" end).
  assert (Hrest : forall x0 : World,
            core x0 = (Some a, usr, file) ->
            page (session_state x0) = Some p ->
            logged_in_user (session_state x0) = usr ->
            effect (mkWorld (mkSession (Some a) pg usr) file out)
              (snd ((if truthy usr then manage_user_list_page w
                     else if bool_decide (p = "home") then
                       (if home_register w then set_page "register";; st_rerun else mret tt);;
                       (if home_login w then set_page "login";; st_rerun else mret tt)
                     else if bool_decide (p = "register") then
                       register_account_page w;;
                       (if reg_back w then set_page "home";; st_rerun else mret tt)
                     else if bool_decide (p = "login") then
                       login_account_page w;;
                       (if login_back w then set_page "home";; st_rerun else mret tt)
                     else set_page "home";; st_rerun) x0))).
  { intros x0 Hc Hp Hu0.
    assert (Ha0 : accounts (session_state x0) = Some a).
    { unfold core in Hc. now injection Hc. }
    assert (Hstep : forall x1, effect x0 x1 ->
              effect (mkWorld (mkSession (Some a) pg usr) file out) x1).
    { intros x1. apply effect_core; [exact Hc | reflexivity]. }
    assert (Hkeep : forall x1, core x1 = core x0 ->
              effect (mkWorld (mkSession (Some a) pg usr) file out) x1).
    { intros x1 H1. apply Hstep. eapply effect_core; [reflexivity | symmetry; exact H1 |].
      exact (effect_refl x0 a Ha0). }
    destruct (truthy usr).
    - apply Hstep. exact (manage_effect' w x0 a Ha0).
    - destruct (bool_decide (p = "home")).
      + destruct (home_register w), (home_login w); run_script; apply Hkeep; reflexivity.
      + destruct (bool_decide (p = "register")).
        * pose proof (register_effect w x0 a Ha0) as He. unfold after in He.
          run_script. destruct (register_account_page w x0) as [[[]|e] x1]; simpl in He |- *.
          -- destruct (reg_back w); simpl; apply Hstep;
               (eapply effect_core; [reflexivity | | exact He]); reflexivity.
          -- now apply Hstep.
        * destruct (bool_decide (p = "login")).
          -- pose proof (login_effect w x0 a Ha0) as He. unfold after in He.
             run_script. destruct (login_account_page w x0) as [[[]|e] x1]; simpl in He |- *.
             ++ destruct (login_back w); simpl; apply Hstep;
                  (eapply effect_core; [reflexivity | | exact He]); reflexivity.
             ++ now apply Hstep.
          -- run_script. apply Hkeep. reflexivity. }
  destruct pg as [p0|]; simpl; apply Hrest; reflexivity.
Qed.

(** ** Lists without duplicates *)

Lemma list_step_NoDup (l l' : list string) : NoDup l -> list_step l l' -> NoDup l'.
Proof.
  intros Hnd [(y & _ & Hr) | [(n & _ & Hn & ->) | ->]].
  - eapply sublist_NoDup; [exact Hnd | apply (PyStrFacts.remove_sublist y l l' Hr)].
  - apply NoDup_app. split; [exact Hnd|]. split.
    + intros z Hz Hz'. apply list_elem_of_singleton in Hz'. now subst z.
    + apply NoDup_singleton.
  - apply NoDup_nil_2.
Qed.

Lemma effect_duplicate_free (x x' : World) (a a' : gmap string Account) :
  effect x x' ->
  accounts (session_state x) = Some a ->
  accounts (session_state x') = Some a' ->
  duplicate_free a -> duplicate_free a'.
Proof.
  intros He Ha Ha' Hdf.
  destruct He as [b H1 H2 _ _ | b u h H1 H2 _ H4 _ _ | b u d l H1 _ H3 H4 H5 _ _];
    rewrite Ha in H1; injection H1 as <-.
  - rewrite Ha' in H2. injection H2 as ->. exact Hdf.
  - rewrite Ha' in H4. injection H4 as ->. intros k e He.
    destruct (decide (k = u)) as [->|Hne].
    + rewrite lookup_insert_eq in He. injection He as <-. apply NoDup_nil_2.
    + rewrite lookup_insert_ne in He by congruence. eapply Hdf. exact He.
  - rewrite Ha' in H5. injection H5 as ->. intros k e He.
    destruct (decide (k = u)) as [->|Hne].
    + rewrite lookup_insert_eq in He. injection He as <-. simpl.
      eapply list_step_NoDup; [|exact H4]. eapply Hdf. exact H3.
    + rewrite lookup_insert_ne in He by congruence. eapply Hdf. exact He.
Qed.

(** A first run on a file outside the data model stops before it changes
    anything. *)
Lemma main_app_outside (w : Widgets) (x : World) :
  session_state x = fresh ->
  stored (accounts_file x) = None ->
  exists e, main_app w x = (Raise e, x).
Proof.
  intros Hs Hst. destruct x as [s file out]. simpl in Hs, Hst. subst s.
  unfold stored in Hst. destruct file as [text|]; [|discriminate].
  unfold main_app, load_accounts, fresh. run_script.
  destruct (Json.load text) as [doc| | | | |]; try discriminate;
    try (eexists; reflexivity).
  simpl. rewrite Hst. eexists. reflexivity.
Qed.

Lemma tidy_run (w : Widgets) (x : World) : tidy x -> tidy (after (main_app w) x).
Proof.
  unfold tidy. intros Ht.
  destruct (accounts (session_state x)) as [a|] eqn:Ha.
  - pose proof (main_app_effect w x a Ha) as He.
    assert (Hsome : exists a', accounts (session_state (after (main_app w) x)) = Some a').
    { destruct He; eauto. }
    destruct Hsome as (a' & Ha'). rewrite Ha'.
    exact (effect_duplicate_free x _ a a' He Ha Ha' Ht).
  - destruct Ht as (Hs & Hfile).
    destruct (stored (accounts_file x)) as [a|] eqn:Hst.
    + destruct (main_app_first_run w x a Hs Hst) as (ctl & p & ns & Hrun & _).
      unfold after. rewrite Hrun. simpl. now apply Hfile.
    + unfold after. destruct (main_app_outside w x Hs Hst) as (e & ->). simpl.
      rewrite Ha. split; [exact Hs|]. rewrite Hst. discriminate.
Qed.

Lemma tidy_reachable (x0 x : World) : tidy x0 -> reachable x0 x -> tidy x.
Proof.
  intros H0 Hr. induction Hr as [|x w _ IH]; [exact H0 | now apply tidy_run].
Qed.

(** [C8] No list ever holds the same string twice.  Start from a session
    whose dictionary has no duplicates (the empty one, for example), or
    from a new session whose file holds such a dictionary; then after any
    number of runs, whatever the widgets of each run (registrations,
    logins, additions, removals, clearing, logging out), every list of
    the dictionary is free of duplicates. *)
Theorem lists_stay_duplicate_free (x0 x : World) :
  tidy x0 ->
  reachable x0 x ->
  forall a u d,
    accounts (session_state x) = Some a -> a !! u = Some d -> NoDup (my_list d).
Proof.
  intros H0 Hr a u d Ha Hd.
  pose proof (tidy_reachable x0 x H0 Hr) as Ht.
  unfold tidy in Ht. rewrite Ha in Ht. eapply Ht. exact Hd.
Qed.

Lemma lists_stay_duplicate_free_witness :
  tidy (on_page (alice_with ["milk"]) "list_management" (Some "alice"))
  /\ reachable (on_page (alice_with ["milk"]) "list_management" (Some "alice"))
       (after (main_app (press_add "milk"))
          (after (main_app (press_add "eggs"))
             (on_page (alice_with ["milk"]) "list_management" (Some "alice"))))
  /\ (forall a u d,
        accounts (session_state
          (after (main_app (press_add "milk"))
             (after (main_app (press_add "eggs"))
                (on_page (alice_with ["milk"]) "list_management" (Some "alice")))))
        = Some a ->
        a !! u = Some d -> NoDup (my_list d)).
Proof.
  assert (Ht : tidy (on_page (alice_with ["milk"]) "list_management" (Some "alice"))).
  { intros u d Hd. unfold alice_with in Hd.
    apply lookup_singleton_Some in Hd as [_ <-]. simpl.
    apply NoDup_singleton. }
  assert (Hr : reachable (on_page (alice_with ["milk"]) "list_management" (Some "alice"))
       (after (main_app (press_add "milk"))
          (after (main_app (press_add "eggs"))
             (on_page (alice_with ["milk"]) "list_management" (Some "alice"))))).
  { apply reach_run, reach_run, reach_start. }
  split; [exact Ht|]. split; [exact Hr|].
  exact (lists_stay_duplicate_free _ _ Ht Hr).
Defined.

(** ** The list page touches one account *)

Lemma list_page_keeps_others (w : Widgets) (x : World) (a : gmap string Account)
    (u : string) :
  logged_in_user (session_state x) = Some u ->
  accounts (session_state x) = Some a ->
  (accounts (session_state (after (manage_user_list_page w) x)) = Some a
   /\ accounts_file (after (manage_user_list_page w) x) = accounts_file x)
  \/ (exists d l,
        a !! u = Some d
        /\ accounts (session_state (after (manage_user_list_page w) x))
           = Some (<[u := set_my_list l d]> a)
        /\ accounts_file (after (manage_user_list_page w) x)
           = saved_as (<[u := set_my_list l d]> a)).
Proof.
  intros Hu Ha. destruct (a !! u) as [d|] eqn:Hd.
  - destruct (manage_effect w x a u d Hu Ha Hd) as [Hk | (l & _ & Hacc & Hfile)].
    + left. exact Hk.
    + right. exists d, l. auto.
  - left. destruct x as [[acc pg usr] file out]. simpl in Hu, Ha. subst acc usr.
    unfold after, manage_user_list_page. run_script. rewrite Hd. simpl. auto.
Qed.

(** [C9] The list page changes at most the account of the logged-in user.
    Whatever the widgets (ticked checkboxes, text, buttons), after the run
    every other username has the entry it had, in the dictionary of the
    session and in the dictionary that the file holds; the logged-in user
    keeps its password hash.  The file is taken to hold the dictionary of
    the session before the run, as it does after every save. *)
Theorem list_page_frame (w : Widgets) (x : World) (a : gmap string Account) (u : string) :
  logged_in_user (session_state x) = Some u ->
  accounts (session_state x) = Some a ->
  stored (accounts_file x) = Some a ->
  exists a',
    accounts (session_state (after (manage_user_list_page w) x)) = Some a'
    /\ stored (accounts_file (after (manage_user_list_page w) x)) = Some a'
    /\ (forall other, other <> u -> a' !! other = a !! other)
    /\ (forall d, a !! u = Some d ->
          exists l, a' !! u = Some (mkAccount (password_hash d) l)).
Proof.
  intros Hu Ha Hst.
  destruct (list_page_keeps_others w x a u Hu Ha)
    as [(Hacc & Hfile) | (d & l & Hd & Hacc & Hfile)].
  - exists a. split; [exact Hacc|]. split; [now rewrite Hfile|].
    split; [reflexivity|]. intros d Hd. exists (my_list d). rewrite Hd. now destruct d.
  - exists (<[u := set_my_list l d]> a). split; [exact Hacc|].
    split; [rewrite Hfile; apply stored_saved|]. split.
    + intros other Hne. apply lookup_insert_ne. congruence.
    + intros d' Hd'. rewrite Hd in Hd'. injection Hd' as <-.
      exists l. apply lookup_insert_eq.
Qed.

Lemma list_page_frame_witness :
  stored (saved_as two_users) = Some two_users
  /\ exists a',
       accounts (session_state
         (after (manage_user_list_page (press_add "eggs"))
            (mkWorld (mkSession (Some two_users) (Some "list_management") (Some "alice"))
               (saved_as two_users) []))) = Some a'
       /\ a' !! "bob" = two_users !! "bob".
Proof.
  split; [apply stored_saved|].
  destruct (list_page_frame (press_add "eggs")
              (mkWorld (mkSession (Some two_users) (Some "list_management") (Some "alice"))
                 (saved_as two_users) [])
              two_users "alice" eq_refl eq_refl (stored_saved two_users))
    as (a' & Hacc & _ & Hother & _).
  exists a'. split; [exact Hacc|]. apply Hother. discriminate.
Defined.

(* ===================================================================== *)
(** * Further properties of the application                               *)
(* ===================================================================== *)

(** What the session and the file hold once the list of [u] has been
    replaced by [l]: the account of [u] has the old password hash and the
    list [l], every other account is as before, and the file reads back
    as the dictionary of the session. *)
Lemma with_list_holds (x : World) (a : gmap string Account) (u : string) (d : Account)
    (l : list string) (ns : list Notice) :
  exists a',
    accounts (session_state (with_list x a u d l ns)) = Some a'
    /\ a' !! u = Some (mkAccount (password_hash d) l)
    /\ (forall other, other <> u -> a' !! other = a !! other)
    /\ stored (accounts_file (with_list x a u d l ns)) = Some a'.
Proof.
  exists (<[u := set_my_list l d]> a). split; [reflexivity|]. split; [|split].
  - rewrite lookup_insert_eq. reflexivity.
  - intros other Ho. now apply lookup_insert_ne.
  - apply stored_saved.
Qed.

(** [C4] Adding an item, when no checkbox is ticked and "Add Item" is the
    button pressed.  The text is stripped first.  An empty text, or one
    that is already in the list (equality of strings, so letter case
    counts), gives a warning and leaves the dictionary of the session,
    hence the list, and the file as they are.  Any other text is appended
    to the end of the list: after the run the account of the user holds
    the old list followed by the new item, which occurs in it exactly
    once, the other accounts and the password hash are as before, the
    file reads back as the dictionary of the session, the success notice
    is shown and the script reruns. *)
Theorem add_item_behaviour (w : Widgets) (x : World) (a : gmap string Account)
    (u : string) (d : Account) :
  logged_in_user (session_state x) = Some u ->
  accounts (session_state x) = Some a ->
  a !! u = Some d ->
  first_ticked w 0 (my_list d) = None ->
  add_item_button w = true ->
  clear_list_button w = false ->
  logout_button w = false ->
  let new_item := PyStr.strip (add_new_item_input w) in
  let x' := after (manage_user_list_page w) x in
  (new_item = "" ->
   manage_user_list_page w x
   = (Value tt, notes x (listing (my_list d) ++ [(Warning, "Item cannot be empty.")]))
   /\ accounts (session_state x') = Some a
   /\ accounts_file x' = accounts_file x)
  /\ (new_item <> "" -> new_item ∈ my_list d ->
      manage_user_list_page w x
      = (Value tt,
         notes x (listing (my_list d)
                  ++ [(Warning, "'" +:+ new_item +:+ "' is already in your list.")]))
      /\ accounts (session_state x') = Some a
      /\ accounts_file x' = accounts_file x)
  /\ (new_item <> "" -> new_item ∉ my_list d ->
      manage_user_list_page w x
      = (Raise RerunException,
         with_list x a u d (my_list d ++ [new_item])
           (listing (my_list d)
            ++ [(Success, "'" +:+ new_item +:+ "' added to your list!")]))
      /\ (exists a' d',
            accounts (session_state x') = Some a'
            /\ a' !! u = Some d'
            /\ my_list d' = my_list d ++ [new_item]
            /\ count_occ string_dec (my_list d') new_item = 1
            /\ password_hash d' = password_hash d
            /\ (forall other, other <> u -> a' !! other = a !! other)
            /\ accounts_file x' = Some (Json.dumps (Json.of_accounts a'))
            /\ stored (accounts_file x') = Some a')
      /\ count_occ string_dec (my_list d ++ [new_item]) new_item = 1).
Proof.
  intros Hu Ha Hd Ht Hadd Hclear Hlogout new_item x'.
  assert (Hrun : manage_user_list_page w x
                 = below_the_list w (Some u) d (notes x (listing (my_list d))))
    by exact (manage_quiet w x a u d Hu Ha Hd Ht).
  unfold x', after. rewrite Hrun. clear x' Hrun.
  destruct x as [[acc pg usr] file out]. simpl in Hu, Ha. subst acc usr.
  unfold below_the_list. fold new_item. rewrite Hadd, Hclear, Hlogout.
  split; [|split].
  - intros He. rewrite bool_decide_eq_true_2 by exact He.
    crunch Hd. unfold notes. simpl. rewrite <- app_assoc. auto.
  - intros Hne Hin. rewrite bool_decide_eq_false_2 by exact Hne.
    rewrite (proj2 (PyStrFacts.contains_spec _ _) Hin).
    crunch Hd. unfold notes. simpl. rewrite <- app_assoc. auto.
  - intros Hne Hnin. rewrite bool_decide_eq_false_2 by exact Hne.
    rewrite (proj2 (PyStrFacts.contains_false _ _) Hnin).
    assert (Hcount : count_occ string_dec (my_list d ++ [new_item]) new_item = 1).
    { rewrite count_occ_app. simpl.
      destruct (string_dec new_item new_item) as [_|Hc]; [|congruence].
      rewrite (proj1 (count_occ_not_In string_dec _ _)); [reflexivity|].
      intros Hin. apply Hnin. now apply list_elem_of_In. }
    split; [|split; [|exact Hcount]].
    + crunch Hd. unfold with_list. simpl. now rewrite <- app_assoc.
    + crunch Hd.
      destruct (with_list_holds (mkWorld (mkSession (Some a) pg (Some u)) file out)
                  a u d (my_list d ++ [new_item])
                  (listing (my_list d)
                   ++ [(Success, "'" +:+ new_item +:+ "' added to your list!")]))
        as (a' & Hacc & Hlook & Hothers & Hstored).
      simpl in Hacc. injection Hacc as <-.
      exists (<[u := set_my_list (my_list d ++ [new_item]) d]> a),
             (mkAccount (password_hash d) (my_list d ++ [new_item])).
      split; [reflexivity|]. split; [exact Hlook|]. split; [reflexivity|].
      split; [exact Hcount|]. split; [reflexivity|]. split; [exact Hothers|].
      split; [reflexivity|]. apply stored_saved.
Qed.

Lemma add_item_behaviour_witness :
  first_ticked (press_add " eggs ") 0 ["milk"] = None
  /\ exists a' d',
       accounts (session_state
         (after (manage_user_list_page (press_add " eggs "))
            (on_page (alice_with ["milk"]) "list_management" (Some "alice")))) = Some a'
       /\ a' !! "alice" = Some d'
       /\ my_list d' = ["milk"; "eggs"]
       /\ stored (accounts_file
            (after (manage_user_list_page (press_add " eggs "))
               (on_page (alice_with ["milk"]) "list_management" (Some "alice"))))
          = Some a'.
Proof.
  split; [reflexivity|].
  destruct (add_item_behaviour (press_add " eggs ")
              (on_page (alice_with ["milk"]) "list_management" (Some "alice"))
              (alice_with ["milk"]) "alice" (mkAccount alice_hash ["milk"])
              eq_refl eq_refl eq_refl eq_refl eq_refl eq_refl eq_refl)
    as (_ & _ & Hnew).
  destruct Hnew as (_ & (a' & d' & Hacc & Hlook & Hlist & _ & _ & _ & _ & Hstored) & _).
  - vm_compute. discriminate.
  - apply PyStrFacts.contains_false. vm_compute. reflexivity.
  - exists a', d'. split; [exact Hacc|]. split; [exact Hlook|].
    split; [exact Hlist | exact Hstored].
Defined.

(** ** Clearing the list and logging out *)

(** [X1] Clearing: with no checkbox ticked and only "Clear All Items" pressed,
    a list that has items becomes empty: after the run the account of the
    user holds the empty list and its old password hash, the other
    accounts are as before, the file reads back as the dictionary of the
    session, the success notice is shown and the script reruns.  An empty
    list stays as it is, with the dictionary and the file, and only the
    notice "Your list is already empty." is added. *)
Theorem clear_list_behaviour (w : Widgets) (x : World) (a : gmap string Account)
    (u : string) (d : Account) :
  logged_in_user (session_state x) = Some u ->
  accounts (session_state x) = Some a ->
  a !! u = Some d ->
  first_ticked w 0 (my_list d) = None ->
  add_item_button w = false ->
  clear_list_button w = true ->
  logout_button w = false ->
  let x' := after (manage_user_list_page w) x in
  (my_list d <> [] ->
   manage_user_list_page w x
   = (Raise RerunException,
      with_list x a u d [] [(Success, "Your list has been cleared!")])
   /\ exists a' d',
        accounts (session_state x') = Some a'
        /\ a' !! u = Some d'
        /\ my_list d' = []
        /\ password_hash d' = password_hash d
        /\ (forall other, other <> u -> a' !! other = a !! other)
        /\ accounts_file x' = Some (Json.dumps (Json.of_accounts a'))
        /\ stored (accounts_file x') = Some a')
  /\ (my_list d = [] ->
      manage_user_list_page w x
      = (Value tt,
         notes x [(Info, "Your list is empty. Add some items!");
                  (Info, "Your list is already empty.")])
      /\ accounts (session_state x') = Some a
      /\ accounts_file x' = accounts_file x).
Proof.
  intros Hu Ha Hd Ht Hadd Hclear Hlogout x'.
  assert (Hrun : manage_user_list_page w x
                 = below_the_list w (Some u) d (notes x (listing (my_list d))))
    by exact (manage_quiet w x a u d Hu Ha Hd Ht).
  unfold x', after. rewrite Hrun. clear x' Hrun.
  destruct x as [[acc pg usr] file out]. simpl in Hu, Ha. subst acc usr.
  unfold below_the_list. rewrite Hadd, Hclear, Hlogout.
  split.
  - intros Hne. destruct (my_list d) as [|i r] eqn:El; [congruence|].
    crunch Hd. split.
    + unfold with_list. simpl. rewrite app_nil_r. reflexivity.
    + destruct (with_list_holds (mkWorld (mkSession (Some a) pg (Some u)) file out)
                  a u d [] [(Success, "Your list has been cleared!")])
        as (a' & Hacc & Hlook & Hothers & Hstored).
      simpl in Hacc. injection Hacc as <-.
      exists (<[u := set_my_list [] d]> a), (mkAccount (password_hash d) []).
      split; [reflexivity|]. split; [exact Hlook|]. split; [reflexivity|].
      split; [reflexivity|]. split; [exact Hothers|].
      split; [reflexivity|]. apply stored_saved.
  - intros He. rewrite He. crunch Hd. unfold notes. simpl.
    rewrite <- app_assoc. auto.
Qed.

Lemma clear_list_behaviour_witness :
  first_ticked press_clear 0 ["milk"; "eggs"] = None
  /\ exists a' d',
       accounts (session_state
         (after (manage_user_list_page press_clear)
            (on_page (alice_with ["milk"; "eggs"]) "list_management" (Some "alice"))))
       = Some a'
       /\ a' !! "alice" = Some d'
       /\ my_list d' = []
       /\ stored (accounts_file
            (after (manage_user_list_page press_clear)
               (on_page (alice_with ["milk"; "eggs"]) "list_management" (Some "alice"))))
          = Some a'.
Proof.
  split; [reflexivity|].
  destruct (clear_list_behaviour press_clear
              (on_page (alice_with ["milk"; "eggs"]) "list_management" (Some "alice"))
              (alice_with ["milk"; "eggs"]) "alice" (mkAccount alice_hash ["milk"; "eggs"])
              eq_refl eq_refl eq_refl eq_refl eq_refl eq_refl eq_refl)
    as ((_ & a' & d' & Hacc & Hlook & Hlist & _ & _ & _ & Hstored) & _).
  - discriminate.
  - exists a', d'. split; [exact Hacc|]. split; [exact Hlook|].
    split; [exact Hlist | exact Hstored].
Defined.

(** [X2] Logging out: with no checkbox ticked and only "Logout" pressed, the
    run forgets the logged-in user, goes to the page "home" and reruns;
    the dictionary of the session and the file are not touched. *)
Theorem logout_behaviour (w : Widgets) (x : World) (a : gmap string Account)
    (u : string) (d : Account) :
  logged_in_user (session_state x) = Some u ->
  accounts (session_state x) = Some a ->
  a !! u = Some d ->
  first_ticked w 0 (my_list d) = None ->
  add_item_button w = false ->
  clear_list_button w = false ->
  logout_button w = true ->
  manage_user_list_page w x
  = (Raise RerunException,
     mkWorld (mkSession (Some a) (Some "home") None) (accounts_file x)
       (shown x ++ listing (my_list d))).
Proof.
  intros Hu Ha Hd Ht Hadd Hclear Hlogout.
  rewrite (manage_quiet w x a u d Hu Ha Hd Ht).
  destruct x as [[acc pg usr] file out]. simpl in Hu, Ha. subst acc usr.
  unfold below_the_list. rewrite Hadd, Hclear, Hlogout.
  crunch Hd. reflexivity.
Qed.

Lemma logout_behaviour_witness :
  first_ticked press_logout 0 ["milk"] = None
  /\ manage_user_list_page press_logout
       (on_page (alice_with ["milk"]) "list_management" (Some "alice"))
     = (Raise RerunException,
        mkWorld (mkSession (Some (alice_with ["milk"])) (Some "home") None) None []).
Proof.
  split; [reflexivity|].
  apply (logout_behaviour press_logout
           (on_page (alice_with ["milk"]) "list_management" (Some "alice"))
           (alice_with ["milk"]) "alice" (mkAccount alice_hash ["milk"])
           eq_refl eq_refl eq_refl eq_refl eq_refl eq_refl eq_refl).
Defined.

(** [X3] The list page of a user who is not in the dictionary: the lookup
    [accounts[username]] raises [KeyError] before anything is shown or
    changed. *)
Theorem list_page_missing_account (w : Widgets) (x : World) (a : gmap string Account)
    (user : option string) :
  logged_in_user (session_state x) = user ->
  accounts (session_state x) = Some a ->
  (forall u, user = Some u -> a !! u = None) ->
  manage_user_list_page w x = (Raise (KeyError user), x).
Proof.
  intros Hu Ha Hmiss.
  destruct x as [[acc pg usr] file out]. simpl in Hu, Ha. subst acc usr.
  unfold manage_user_list_page. run_script.
  destruct user as [u|]; [|reflexivity].
  rewrite (Hmiss u eq_refl). reflexivity.
Qed.

Lemma list_page_missing_account_witness :
  (forall u, Some "bob" = Some u -> alice_with [] !! u = None)
  /\ manage_user_list_page idle (on_page (alice_with []) "list_management" (Some "bob"))
     = (Raise (KeyError (Some "bob")),
        on_page (alice_with []) "list_management" (Some "bob")).
Proof.
  assert (H : forall u, Some "bob" = Some u -> alice_with [] !! u = None).
  { intros u Hu. injection Hu as <-. reflexivity. }
  split; [exact H|].
  exact (list_page_missing_account idle
           (on_page (alice_with []) "list_management" (Some "bob"))
           (alice_with []) (Some "bob") eq_refl eq_refl H).
Defined.

(** ** Routing *)

(** [X4] A page name that [main_app] does not know, with nobody logged in (the
    empty username counts as nobody), is replaced by "home" and the
    script reruns; nothing else changes.  In particular a login under the
    empty username, possible only when the file holds that key, never
    shows the list page. *)
Theorem unknown_page_goes_home (w : Widgets) (x : World) (a : gmap string Account)
    (p : string) :
  accounts (session_state x) = Some a ->
  page (session_state x) = Some p ->
  truthy (logged_in_user (session_state x)) = false ->
  p <> "home" -> p <> "register" -> p <> "login" ->
  main_app w x
  = (Raise RerunException,
     mkWorld (mkSession (Some a) (Some "home") (logged_in_user (session_state x)))
       (accounts_file x) (shown x)).
Proof.
  intros Ha Hp Hu H1 H2 H3.
  destruct x as [[acc pg usr] file out]. simpl in Ha, Hp, Hu. subst acc pg.
  unfold main_app. run_script. rewrite Hu.
  rewrite !bool_decide_eq_false_2 by assumption. reflexivity.
Qed.

Lemma unknown_page_goes_home_witness :
  truthy (Some "") = false
  /\ main_app idle (on_page (alice_with []) "list_management" (Some ""))
     = (Raise RerunException, on_page (alice_with []) "home" (Some "")).
Proof.
  split; [reflexivity|].
  apply (unknown_page_goes_home idle
           (on_page (alice_with []) "list_management" (Some "")) (alice_with [])
           "list_management" eq_refl eq_refl eq_refl); discriminate.
Defined.

(** ** Runs never crash *)











(** ** The file mirrors the session *)





(** ** Accounts are never lost *)

Lemma keeps_accounts_refl (a : gmap string Account) : keeps_accounts a a.
Proof. intros u d Hd. eauto. Qed.

Lemma keeps_accounts_trans (a b c : gmap string Account) :
  keeps_accounts a b -> keeps_accounts b c -> keeps_accounts a c.
Proof.
  intros Hab Hbc u d Hd. destruct (Hab u d Hd) as (d' & Hd' & Hh).
  destruct (Hbc u d' Hd') as (d'' & Hd'' & Hh'). exists d''. split; [exact Hd''|].
  congruence.
Qed.

Lemma effect_keeps_accounts (x x' : World) (a : gmap string Account) :
  effect x x' ->
  accounts (session_state x) = Some a ->
  exists a', accounts (session_state x') = Some a' /\ keeps_accounts a a'.
Proof.
  intros [b H1 H2 _ _ | b u h H1 H2 _ H4 _ _ | b u d l H1 _ H3 _ H5 _ _] Ha;
    rewrite Ha in H1; injection H1 as <-.
  - exists a. split; [exact H2 | apply keeps_accounts_refl].
  - eexists. split; [exact H4|]. intros v e He.
    destruct (decide (v = u)) as [->|Hne]; [congruence|].
    exists e. rewrite lookup_insert_ne by congruence. auto.
  - eexists. split; [exact H5|]. intros v e He.
    destruct (decide (v = u)) as [->|Hne].
    + rewrite He in H3. injection H3 as ->. rewrite lookup_insert_eq. eauto.
    + exists e. rewrite lookup_insert_ne by congruence. auto.
Qed.

(** [X7] No run deletes an account or changes a stored password hash: every
    username that the dictionary of the session holds is still there
    after any number of runs, with the hash it had. *)
Theorem accounts_are_kept (x0 x : World) (a0 : gmap string Account) :
  accounts (session_state x0) = Some a0 ->
  reachable x0 x ->
  exists a, accounts (session_state x) = Some a /\ keeps_accounts a0 a.
Proof.
  intros H0 Hr. induction Hr as [|y w _ (b & Hb & Hk)].
  - exists a0. split; [exact H0 | apply keeps_accounts_refl].
  - destruct (effect_keeps_accounts y _ b (main_app_effect w y b Hb) Hb) as (c & Hc & Hk').
    exists c. split; [exact Hc|]. eapply keeps_accounts_trans; eassumption.
Qed.

Lemma accounts_are_kept_witness :
  accounts (session_state (on_page alice_only "register" None)) = Some alice_only
  /\ reachable (on_page alice_only "register" None)
       (after (main_app (submit_registration "alice" "Other9#"))
          (on_page alice_only "register" None))
  /\ exists a,
       accounts (session_state
         (after (main_app (submit_registration "alice" "Other9#"))
            (on_page alice_only "register" None))) = Some a
       /\ keeps_accounts alice_only a.
Proof.
  assert (Hr : reachable (on_page alice_only "register" None)
       (after (main_app (submit_registration "alice" "Other9#"))
          (on_page alice_only "register" None))).
  { apply reach_run, reach_start. }
  split; [reflexivity|]. split; [exact Hr|].
  exact (accounts_are_kept (on_page alice_only "register" None) _ alice_only eq_refl Hr).
Defined.

(** ** No empty username, no empty item *)

Lemma list_step_named (l l' : list string) : ("" ∉ l) -> list_step l l' -> "" ∉ l'.
Proof.
  intros Hn [(y & _ & Hr) | [(n & Hne & _ & ->) | ->]].
  - intros Hin. apply Hn.
    eapply elem_of_sublist; [exact Hin | apply (PyStrFacts.remove_sublist y l l' Hr)].
  - intros Hin. apply elem_of_app in Hin as [Hin | Hin]; [contradiction|].
    apply list_elem_of_singleton in Hin. congruence.
  - apply not_elem_of_nil.
Qed.

Lemma effect_named (x x' : World) (a a' : gmap string Account) :
  effect x x' ->
  accounts (session_state x) = Some a ->
  accounts (session_state x') = Some a' ->
  named a -> named a'.
Proof.
  intros He Ha Ha' Hn.
  destruct He as [b H1 H2 _ _ | b u h H1 _ H3 H4 _ _ | b u d l H1 _ H3 H4 H5 _ _];
    rewrite Ha in H1; injection H1 as <-.
  - rewrite Ha' in H2. injection H2 as ->. exact Hn.
  - rewrite Ha' in H4. injection H4 as ->. intros k e He.
    destruct (decide (k = u)) as [->|Hne].
    + rewrite lookup_insert_eq in He. injection He as <-.
      split; [exact H3 | apply not_elem_of_nil].
    + rewrite lookup_insert_ne in He by congruence. eapply Hn. exact He.
  - rewrite Ha' in H5. injection H5 as ->. intros k e He.
    destruct (decide (k = u)) as [->|Hne].
    + rewrite lookup_insert_eq in He. injection He as <-. simpl.
      destruct (Hn u d H3) as (Hu & Hl). split; [exact Hu|].
      eapply list_step_named; eassumption.
    + rewrite lookup_insert_ne in He by congruence. eapply Hn. exact He.
Qed.

(** [X8] The application never stores an empty username or an empty item: if
    the dictionary of the session has none, then after any number of
    runs it still has none. *)
Theorem names_stay_nonempty (x0 x : World) (a0 : gmap string Account) :
  accounts (session_state x0) = Some a0 ->
  named a0 ->
  reachable x0 x ->
  exists a, accounts (session_state x) = Some a /\ named a.
Proof.
  intros H0 Hn Hr. induction Hr as [|y w _ (b & Hb & Hnb)].
  - eauto.
  - pose proof (main_app_effect w y b Hb) as He.
    assert (Hsome : exists c, accounts (session_state (after (main_app w) y)) = Some c).
    { destruct He; eauto. }
    destruct Hsome as (c & Hc). exists c. split; [exact Hc|].
    exact (effect_named y _ b c He Hb Hc Hnb).
Qed.

Lemma names_stay_nonempty_witness :
  accounts (session_state (on_page ∅ "register" None)) = Some ∅
  /\ named ∅
  /\ reachable (on_page ∅ "register" None)
       (after (main_app (submit_registration "  " "Abc123!")) (on_page ∅ "register" None))
  /\ exists a,
       accounts (session_state
         (after (main_app (submit_registration "  " "Abc123!"))
            (on_page ∅ "register" None))) = Some a
       /\ named a.
Proof.
  assert (Hn : named ∅).
  { intros u d Hd. rewrite lookup_empty in Hd. discriminate. }
  assert (Hr : reachable (on_page ∅ "register" None)
       (after (main_app (submit_registration "  " "Abc123!")) (on_page ∅ "register" None))).
  { apply reach_run, reach_start. }
  split; [reflexivity|]. split; [exact Hn|]. split; [exact Hr|].
  exact (names_stay_nonempty (on_page ∅ "register" None) _ ∅ eq_refl Hn Hr).
Defined.

(** ** The shape of a password hash *)

Lemma round_length (s : list Z) (kw : Z * Z) : length (Sha256.round s kw) = length s.
Proof.
  unfold Sha256.round.
  destruct s as [|a [|b [|c [|d [|e [|f [|g [|h [|i s]]]]]]]]]; reflexivity.
Qed.

Lemma rounds_length (kws : list (Z * Z)) (s : list Z) :
  length (fold_left Sha256.round kws s) = length s.
Proof.
  revert s. induction kws as [|kw kws IH]; intros s; simpl; [reflexivity|].
  now rewrite IH, round_length.
Qed.

Lemma compress_length (h block : list Z) : length (Sha256.compress h block) = length h.
Proof.
  unfold Sha256.compress. rewrite length_map, length_combine, rounds_length.
  apply Nat.min_id.
Qed.

Lemma digest_length (msg : list Z) : length (Sha256.digest msg) = 8.
Proof.
  unfold Sha256.digest.
  generalize (Sha256.chunks
                (length (Sha256.be_words (length (Sha256.pad msg)) (Sha256.pad msg)))
                (Sha256.be_words (length (Sha256.pad msg)) (Sha256.pad msg))).
  intros blocks.
  assert (H : forall h, length (fold_left Sha256.compress blocks h) = length h).
  { induction blocks as [|b blocks IH]; intros h; simpl; [reflexivity|].
    now rewrite IH, compress_length. }
  now rewrite H.
Qed.

Lemma hex_digit_in (n : Z) : (0 <= n < 16)%Z -> In (Sha256.hex_digit n) hex_digits.
Proof.
  intros Hn. unfold Sha256.hex_digit. apply nth_In. simpl length.
  apply Nat2Z.inj_lt. rewrite Z2Nat.id by lia. simpl. lia.
Qed.

Lemma hex_of_spec (n : nat) (x : Z) :
  length (Sha256.hex_of n x) = n /\ Forall (fun c => In c hex_digits) (Sha256.hex_of n x).
Proof.
  induction n as [|n [IHl IHf]]; simpl.
  - split; [reflexivity | constructor].
  - split; [now rewrite IHl|]. constructor; [|exact IHf].
    apply hex_digit_in. apply Z.mod_pos_bound. lia.
Qed.

Lemma flat_hex_spec (ws : list Z) :
  length (flat_map (Sha256.hex_of 8) ws) = 8 * length ws
  /\ Forall (fun c => In c hex_digits) (flat_map (Sha256.hex_of 8) ws).
Proof.
  induction ws as [|x ws [IHl IHf]].
  - split; [reflexivity | constructor].
  - destruct (hex_of_spec 8 x) as (Hl & Hf).
    change (flat_map (Sha256.hex_of 8) (x :: ws))
      with (Sha256.hex_of 8 x ++ flat_map (Sha256.hex_of 8) ws).
    split.
    + rewrite length_app, Hl, IHl. simpl. lia.
    + apply Forall_app. split; assumption.
Qed.

Lemma length_chars (l : list ascii) : String.length (string_of_list_ascii l) = length l.
Proof. induction l as [|c l IH]; simpl; [reflexivity | now rewrite IH]. Qed.

(** [X9] Whatever the password, its hash is a text of 64 characters, each one
    of [0123456789abcdef]. *)
Theorem hash_password_shape (password : string) :
  String.length (hash_password password) = 64
  /\ Forall (fun c => In c hex_digits) (list_ascii_of_string (hash_password password)).
Proof.
  unfold hash_password, Sha256.hexdigest.
  destruct (flat_hex_spec (Sha256.digest (PyStr.encode password))) as (Hl & Hf).
  rewrite digest_length in Hl. split.
  - now rewrite length_chars, Hl.
  - now rewrite list_ascii_of_string_of_list_ascii.
Qed.

(** ** Which characters count as special *)

(** [X10] The special characters of the password rule are the punctuation
    characters of ASCII except the double quote; nothing else counts,
    neither a space nor a character above U+007E. *)
Theorem special_characters_spec (c : ascii) :
  PyStr.one_of special_characters c = punctuation c && negb (Ascii.eqb c Json.quote).
Proof. destruct c as [[] [] [] [] [] [] [] []]; reflexivity. Qed.

(** ** Operations one after the other *)

Lemma remove_last (n : string) (l : list string) :
  (n ∉ l) -> PyStr.remove n (l ++ [n]) = Some l.
Proof.
  induction l as [|y l IH]; intros Hn; simpl.
  - now rewrite String.eqb_refl.
  - destruct (String.eqb y n) eqn:E.
    + apply String.eqb_eq in E. subst y. exfalso. apply Hn. left.
    + rewrite IH; [reflexivity|]. intros H. apply Hn. now right.
Qed.

Lemma add_run (w : Widgets) (x : World) (a : gmap string Account) (u : string)
    (d : Account) :
  logged_in_user (session_state x) = Some u ->
  accounts (session_state x) = Some a ->
  a !! u = Some d ->
  first_ticked w 0 (my_list d) = None ->
  add_item_button w = true ->
  PyStr.strip (add_new_item_input w) <> "" ->
  (PyStr.strip (add_new_item_input w) ∉ my_list d) ->
  manage_user_list_page w x
  = (Raise RerunException,
     with_list x a u d (my_list d ++ [PyStr.strip (add_new_item_input w)])
       (listing (my_list d)
        ++ [(Success, "'" +:+ PyStr.strip (add_new_item_input w)
                      +:+ "' added to your list!")])).
Proof.
  intros Hu Ha Hd Ht Hadd Hne Hnin.
  rewrite (manage_quiet w x a u d Hu Ha Hd Ht).
  destruct x as [[acc pg usr] file out]. simpl in Hu, Ha. subst acc usr.
  unfold below_the_list. rewrite Hadd.
  rewrite bool_decide_eq_false_2 by exact Hne.
  rewrite (proj2 (PyStrFacts.contains_false _ _) Hnin).
  crunch Hd. unfold with_list. simpl. now rewrite <- app_assoc.
Qed.

Lemma set_my_list_same (d : Account) : set_my_list (my_list d) d = d.
Proof. now destruct d. Qed.

(** [X11] Adding a new item and then removing it gives back the dictionary as
    it was, in the session and in the file. *)
Theorem add_then_remove (w1 w2 : Widgets) (x : World) (a : gmap string Account)
    (u : string) (d : Account) :
  logged_in_user (session_state x) = Some u ->
  accounts (session_state x) = Some a ->
  a !! u = Some d ->
  first_ticked w1 0 (my_list d) = None ->
  add_item_button w1 = true ->
  PyStr.strip (add_new_item_input w1) <> "" ->
  (PyStr.strip (add_new_item_input w1) ∉ my_list d) ->
  first_ticked w2 0 (my_list d ++ [PyStr.strip (add_new_item_input w1)])
  = Some (PyStr.strip (add_new_item_input w1)) ->
  accounts (session_state
    (after (manage_user_list_page w2) (after (manage_user_list_page w1) x))) = Some a
  /\ accounts_file
       (after (manage_user_list_page w2) (after (manage_user_list_page w1) x))
     = saved_as a.
Proof.
  intros Hu Ha Hd Ht Hadd Hne Hnin Ht2.
  set (n := PyStr.strip (add_new_item_input w1)) in *.
  unfold after at 2 4. rewrite (add_run w1 x a u d Hu Ha Hd Ht Hadd Hne Hnin).
  fold n. cbn [snd].
  set (x1 := with_list x a u d (my_list d ++ [n]) _).
  assert (Hrun : manage_user_list_page w2 x1
                 = (Raise RerunException,
                    with_list x1 (<[u := set_my_list (my_list d ++ [n]) d]> a) u
                      (set_my_list (my_list d ++ [n]) d) (my_list d)
                      (deletion_notices n))).
  { apply manage_tick.
    - unfold x1, with_list. simpl. exact Hu.
    - reflexivity.
    - apply lookup_insert_eq.
    - exact Ht2.
    - simpl. now apply remove_last. }
  unfold after. rewrite Hrun. unfold with_list. simpl.
  assert (Hback : <[u := set_my_list (my_list d) (set_my_list (my_list d ++ [n]) d)]>
                    (<[u := set_my_list (my_list d ++ [n]) d]> a) = a).
  { rewrite insert_insert_eq.
    change (set_my_list (my_list d) (set_my_list (my_list d ++ [n]) d))
      with (set_my_list (my_list d) d).
    rewrite set_my_list_same. now apply insert_id. }
  rewrite Hback. split; reflexivity.
Qed.

Lemma add_then_remove_witness :
  first_ticked (press_add "eggs") 0 ["milk"] = None
  /\ first_ticked (tick 1) 0 (["milk"] ++ [PyStr.strip "eggs"]) = Some (PyStr.strip "eggs")
  /\ accounts (session_state
       (after (manage_user_list_page (tick 1))
          (after (manage_user_list_page (press_add "eggs"))
             (on_page (alice_with ["milk"]) "list_management" (Some "alice")))))
     = Some (alice_with ["milk"]).
Proof.
  split; [reflexivity|]. split; [reflexivity|].
  apply (add_then_remove (press_add "eggs") (tick 1)
           (on_page (alice_with ["milk"]) "list_management" (Some "alice"))
           (alice_with ["milk"]) "alice" (mkAccount alice_hash ["milk"])
           eq_refl eq_refl eq_refl eq_refl eq_refl).
  - vm_compute. discriminate.
  - apply PyStrFacts.contains_false. vm_compute. reflexivity.
  - reflexivity.
Defined.

(** [X12] Adding the same text a second time changes nothing: the second run
    only shows the warning that the item is already in the list. *)
Theorem add_twice (w1 w2 : Widgets) (x : World) (a : gmap string Account)
    (u : string) (d : Account) :
  logged_in_user (session_state x) = Some u ->
  accounts (session_state x) = Some a ->
  a !! u = Some d ->
  first_ticked w1 0 (my_list d) = None ->
  add_item_button w1 = true ->
  PyStr.strip (add_new_item_input w1) <> "" ->
  (PyStr.strip (add_new_item_input w1) ∉ my_list d) ->
  first_ticked w2 0 (my_list d ++ [PyStr.strip (add_new_item_input w1)]) = None ->
  add_item_button w2 = true ->
  PyStr.strip (add_new_item_input w2) = PyStr.strip (add_new_item_input w1) ->
  clear_list_button w2 = false ->
  logout_button w2 = false ->
  manage_user_list_page w2 (after (manage_user_list_page w1) x)
  = (Value tt,
     notes (after (manage_user_list_page w1) x)
       [(Warning, "'" +:+ PyStr.strip (add_new_item_input w1)
                  +:+ "' is already in your list.")]).
Proof.
  intros Hu Ha Hd Ht Hadd Hne Hnin Ht2 Hadd2 Hsame Hclear Hlogout.
  set (n := PyStr.strip (add_new_item_input w1)) in *.
  unfold after. rewrite (add_run w1 x a u d Hu Ha Hd Ht Hadd Hne Hnin).
  fold n. cbn [snd].
  set (x1 := with_list x a u d (my_list d ++ [n]) _).
  rewrite (manage_quiet w2 x1 (<[u := set_my_list (my_list d ++ [n]) d]> a) u
             (set_my_list (my_list d ++ [n]) d)).
  - unfold below_the_list. rewrite Hadd2, Hclear, Hlogout, Hsame.
    rewrite bool_decide_eq_false_2 by exact Hne.
    assert (Hin : PyStr.contains n (my_list (set_my_list (my_list d ++ [n]) d)) = true).
    { apply PyStrFacts.contains_spec. simpl. apply elem_of_app. right. left. }
    rewrite Hin. run_script.
    assert (Hl : listing (my_list d ++ [n]) = []) by (destruct (my_list d); reflexivity).
    unfold notes. simpl. rewrite Hl. simpl. rewrite app_nil_r. reflexivity.
  - unfold x1, with_list. simpl. exact Hu.
  - reflexivity.
  - apply lookup_insert_eq.
  - exact Ht2.
Qed.

Lemma add_twice_witness :
  first_ticked (press_add "eggs") 0 ["milk"] = None
  /\ PyStr.strip (add_new_item_input (press_add " eggs "))
     = PyStr.strip (add_new_item_input (press_add "eggs"))
  /\ manage_user_list_page (press_add " eggs ")
       (after (manage_user_list_page (press_add "eggs"))
          (on_page (alice_with ["milk"]) "list_management" (Some "alice")))
     = (Value tt,
        notes (after (manage_user_list_page (press_add "eggs"))
                 (on_page (alice_with ["milk"]) "list_management" (Some "alice")))
          [(Warning, "'" +:+ PyStr.strip (add_new_item_input (press_add "eggs"))
                     +:+ "' is already in your list.")]).
Proof.
  split; [reflexivity|]. split; [vm_compute; reflexivity|].
  apply (add_twice (press_add "eggs") (press_add " eggs ")
           (on_page (alice_with ["milk"]) "list_management" (Some "alice"))
           (alice_with ["milk"]) "alice" (mkAccount alice_hash ["milk"])
           eq_refl eq_refl eq_refl eq_refl eq_refl).
  - vm_compute. discriminate.
  - apply PyStrFacts.contains_false. vm_compute. reflexivity.
  - reflexivity.
  - reflexivity.
  - vm_compute. reflexivity.
  - reflexivity.
  - reflexivity.
Defined.

(** [X13] Registering a username that was just registered fails with the
    notice that it already exists, whatever the second password, and
    changes nothing. *)
Theorem register_twice (w1 w2 : Widgets) (x : World) :
  outcome (register_account_page w1) x = Raise RerunException ->
  register_submitted w2 = true ->
  PyStr.strip (register_username w2) = PyStr.strip (register_username w1) ->
  register_account_page w2 (after (register_account_page w1) x)
  = (Value tt,
     says (after (register_account_page w1) x)
       (Error, "Username already exists. Please choose a different one.")).
Proof.
  intros Ho Hs Hsame.
  destruct (register_rerun w1 x Ho) as (a & Ha & _ & Hafter).
  rewrite Hafter.
  set (u := PyStr.strip (register_username w1)) in *.
  set (p := PyStr.strip (register_password w1)) in *.
  unfold register_account_page. rewrite Hs, Hsame. fold u.
  unfold registered. run_script.
  rewrite bool_decide_eq_true_2; [reflexivity|].
  rewrite lookup_insert_eq. eauto.
Qed.

Lemma register_twice_witness :
  outcome (register_account_page (submit_registration "alice" "Abc123!"))
    (on_page ∅ "register" None) = Raise RerunException
  /\ register_account_page (submit_registration " alice " "x")
       (after (register_account_page (submit_registration "alice" "Abc123!"))
          (on_page ∅ "register" None))
     = (Value tt,
        says (after (register_account_page (submit_registration "alice" "Abc123!"))
                (on_page ∅ "register" None))
          (Error, "Username already exists. Please choose a different one.")).
Proof.
  assert (Ho : outcome (register_account_page (submit_registration "alice" "Abc123!"))
                 (on_page ∅ "register" None) = Raise RerunException).
  { vm_compute. reflexivity. }
  split; [exact Ho|].
  apply (register_twice (submit_registration "alice" "Abc123!")
           (submit_registration " alice " "x") (on_page ∅ "register" None) Ho eq_refl).
  vm_compute. reflexivity.
Defined.

(** ** The verification code *)

(** [X14] Whatever the generator yields, the verification code is a text of
    six decimal digits. *)
Theorem verification_code_shape (draw : nat -> nat) :
  String.length (generate_verification_code draw) = VERIFICATION_CODE_LENGTH
  /\ Forall (fun c => PyStr.digit c = true)
       (list_ascii_of_string (generate_verification_code draw)).
Proof.
  unfold generate_verification_code, random_choices.
  rewrite length_chars, list_ascii_of_string_of_list_ascii, length_map, length_seq.
  split; [reflexivity|].
  apply Forall_forall. intros c Hc. apply list_elem_of_In in Hc.
  apply in_map_iff in Hc as (i & <- & _).
  set (p := list_ascii_of_string "0123456789").
  assert (Hin : In (nth (draw i mod length p) p "0"%char) p).
  { apply nth_In. apply Nat.mod_upper_bound. discriminate. }
  revert Hin. generalize (nth (draw i mod length p) p "0"%char). intros c Hin.
  simpl in Hin. repeat (destruct Hin as [<- | Hin]; [reflexivity|]). contradiction.
Qed.
